(** * printer.js: an HTTP to serial bridge for receipt printers

    A shallow embedding of [printer.js] (the bridge) and of the hex helper
    of [index.tsx] (the mobile client), with the properties of the
    serial link life cycle and of the command encoders.

    JavaScript strings are sequences of UTF-16 code units, modelled as
    [list N]; a [Buffer] is a [list N] of bytes.  JSON objects are finite
    maps keyed by strings.

    The module variables [port] and [opening] and the [SerialPort] objects
    form the state; a handler is a function from the request and the state
    to the new state and the reply.  What the device answers to
    [port.open], [port.write] and [port.drain] is an argument of the
    handler.  The handlers are the callbacks of the routes, run once
    authMiddleware has let the request through.  A handler that awaits a
    callback of the device ([port.open] in tryOpen, [port.close] in
    [/close]) is split at its [await], since other handlers run in
    between. *)

From Stdlib Require Import NArith ZArith Ascii String.
From stdpp Require Import gmap list strings.

Local Open Scope N_scope.
Set Warnings "-register-all".

(** ** JavaScript strings *)

Abbreviation jsstring := (list N).
Abbreviation Buffer := (list N).

(** A string literal of the source, as code units. *)
Definition lit (s : string) : jsstring :=
  map N_of_ascii (list_ascii_of_string s).

(** [Number.prototype.toString(radix)] on a non-negative integer: lowercase
    digits, most significant first, no padding.  [String(n)] is radix 10. *)
Definition digit_unit (d : N) : N := if d <? 10 then 48 + d else 87 + d.

Fixpoint digits_aux (radix : N) (fuel : nat) (n : N) (acc : jsstring)
  : jsstring :=
  match fuel with
  | O => acc
  | S f =>
      if n <? radix then digit_unit n :: acc
      else digits_aux radix f (n / radix) (digit_unit (n mod radix) :: acc)
  end.

Definition Number_toString (radix n : N) : jsstring :=
  digits_aux radix (S (N.to_nat (N.size n))) n [].

Definition Z_toString (z : Z) : jsstring :=
  if (z <? 0)%Z then 45 :: Number_toString 10 (Z.abs_N z)
  else Number_toString 10 (Z.to_N z).

(** [String.prototype.padStart(2, '0')]. *)
Definition padStart2 (s : jsstring) : jsstring :=
  repeat 48 (2 - length s)%nat ++ s.

(** [toUpperCase] and [toLowerCase] on strings of ASCII characters, where
    the letters A to Z are the only ones that have a case.  The source
    applies the first to strings of hex digits only; it applies the second
    to the configured device path, so what is proved of pollForPort
    through [toLowerCase] is stated for an ASCII path. *)
Definition upper_unit (c : N) : N :=
  if (97 <=? c) && (c <=? 122) then c - 32 else c.
Definition lower_unit (c : N) : N :=
  if (65 <=? c) && (c <=? 90) then c + 32 else c.
Definition toUpperCase (s : jsstring) : jsstring := map upper_unit s.
Definition toLowerCase (s : jsstring) : jsstring := map lower_unit s.

(** [String.prototype.slice(b, e)] for [0 <= b <= e]. *)
Definition slice (b e : nat) (s : jsstring) : jsstring :=
  take (e - b) (drop b s).

(** [parseInt(s, 10)]: leading white space, a sign, then decimal digits;
    [None] is NaN.  The result is the integer the digits denote, which is
    the number JavaScript gives when it is below 2^53 in absolute value;
    beyond that JavaScript rounds, and the properties that speak of the
    number carry that bound. *)
Definition is_space (c : N) : bool :=
  bool_decide (c ∈ [9; 10; 11; 12; 13; 32; 160; 5760; 8232; 8233; 8239;
                    8287; 12288; 65279])
  || ((8192 <=? c) && (c <=? 8202)).

Fixpoint skip_space (s : jsstring) : jsstring :=
  match s with
  | c :: r => if is_space c then skip_space r else s
  | [] => []
  end.

Fixpoint digits_value (s : jsstring) (acc : option N) : option N :=
  match s with
  | c :: r =>
      if (48 <=? c) && (c <=? 57)
      then digits_value r (Some (10 * default 0 acc + (c - 48)))
      else acc
  | [] => acc
  end.

Definition parseInt10 (s : jsstring) : option Z :=
  match skip_space s with
  | 45 :: r => (fun n => (- Z.of_N n)%Z) <$> digits_value r None
  | 43 :: r => Z.of_N <$> digits_value r None
  | r => Z.of_N <$> digits_value r None
  end.

(** ** asciiToHex (printer.js) and convertToHex (index.tsx) *)

Definition toString16 (n : N) : jsstring := Number_toString 16 n.

(** The loop [for (i = 0; i < str.length; i++) out += h] of asciiToHex,
    on a string. *)
Definition asciiToHex (str : jsstring) : jsstring :=
  toUpperCase
    (fold_left (fun out c => out ++ padStart2 (toString16 c)) str []).

(** [str.split('').map(c => c.charCodeAt(0).toString(16)).join('')]. *)
Definition convertToHex (str : jsstring) : jsstring :=
  concat (map toString16 str).

(** ** Buffer.from(s, 'hex')

    Node decodes two characters at a time and stops at the first pair
    that is not two hex digits; a trailing single character is dropped. *)
Definition unhex (c : N) : option N :=
  if (48 <=? c) && (c <=? 57) then Some (c - 48)
  else if (65 <=? c) && (c <=? 70) then Some (c - 55)
  else if (97 <=? c) && (c <=? 102) then Some (c - 87)
  else None.

Fixpoint Buffer_from_hex (s : jsstring) : Buffer :=
  match s with
  | a :: b :: rest =>
      match unhex a, unhex b with
      | Some x, Some y => (16 * x + y) :: Buffer_from_hex rest
      | _, _ => []
      end
  | _ => []
  end.

(** ** JSON values

    A number is carried as the text [String(n)] yields for it; the number
    is zero exactly when that text is ["0"]. *)
Inductive Json :=
  | JNull
  | JBool (b : bool)
  | JNum (text : list N)
  | JStr (s : list N)
  | JArr (l : list Json)
  | JObj (m : gmap (list N) Json).

Definition truthy (v : Json) : bool :=
  match v with
  | JNull => false
  | JBool b => b
  | JNum t => negb (bool_decide (t = lit "0"))
  | JStr s => negb (bool_decide (s = []))
  | JArr _ | JObj _ => true
  end.

(** [o.k] for the property names the source reads ([hex], [b64], [path],
    [baud], [station], [voucher], [data]): only an object has them. *)
Definition prop (o : option Json) (k : string) : option Json :=
  match o with
  | Some (JObj m) => m !! lit k
  | _ => None
  end.

(** [x || {}]. *)
Definition or_empty (o : option Json) : Json :=
  match o with
  | Some v => if truthy v then v else JObj ∅
  | None => JObj ∅
  end.

(** [String(v)]; [None] is the TypeError raised for an object whose own
    [toString] property hides the inherited method. *)
Fixpoint js_String (v : Json) : option jsstring :=
  match v with
  | JNull => Some (lit "null")
  | JBool true => Some (lit "true")
  | JBool false => Some (lit "false")
  | JNum t => Some t
  | JStr s => Some s
  | JArr l =>
      (fix join (l : list Json) : option jsstring :=
         match l with
         | [] => Some []
         | x :: r =>
             e ← match x with JNull => Some [] | _ => js_String x end;
             match r with
             | [] => Some e
             | _ => t ← join r; Some (e ++ 44 :: t)
             end
         end) l
  | JObj m =>
      if bool_decide (is_Some (m !! lit "toString")) then None
      else Some (lit "[object Object]")
  end.

(** [String(x)] and [`${x}`] on a property that may be absent. *)
Definition String_of (o : option Json) : option jsstring :=
  match o with
  | None => Some (lit "undefined")
  | Some v => js_String v
  end.

(** asciiToHex on any value: [if (typeof str !== 'string')
    str = String(str ?? '')]. *)
Definition asciiToHex_of (o : option Json) : option jsstring :=
  match o with
  | None | Some JNull => Some (asciiToHex [])
  | Some v => asciiToHex <$> js_String v
  end.

(** The own enumerable properties [Object.assign] copies from a source;
    assigning [__proto__] sets the prototype and adds no property. *)
Definition own_props (v : Json) : gmap (list N) Json :=
  match v with
  | JObj m => delete (lit "__proto__") m
  | JStr s =>
      list_to_map
        (imap (fun i c => (Number_toString 10 (N.of_nat i), JStr [c])) s)
  | JArr l =>
      list_to_map (imap (fun i x => (Number_toString 10 (N.of_nat i), x)) l)
  | _ => ∅
  end.

Definition Object_assign (target : gmap (list N) Json) (src : Json)
  : gmap (list N) Json :=
  own_props src ∪ target.

(** [Object.keys(v).length]. *)
Definition keys_length (v : Json) : nat :=
  match v with
  | JObj m => size m
  | JArr l => length l
  | JStr s => length s
  | _ => 0%nat
  end.

(** ** The bridge: configuration, link state and replies *)

(** The constants read from [process.env] when the process starts; [BAUD]
    is the integer [parseInt] made of the variable. *)
Record Config := {
  SERIAL_PATH : jsstring;
  BAUD : Z;
  BRIDGE_SECRET : jsstring;
  AUTO_OPEN : bool
}.

(** An object made by [new SerialPort({ path, baudRate, autoOpen: false })].
    [isOpen] is what the getter of the library answers: true from the
    callback of [open] until [close] is called on the object or the device
    goes away.  After [close] is called the object still holds its handle
    of the operating system until the callback of [close]. *)
Record SerialPort := {
  path : Json;
  baudRate : Z;
  isOpen : bool
}.

Definition set_isOpen (b : bool) (p : SerialPort) : SerialPort :=
  {| path := path p; baudRate := baudRate p; isOpen := b |}.

(** The module state.  [objects] holds every [SerialPort] constructed so
    far and [port] refers to one of them by position, so that the handlers
    and the ['close'] listeners share the objects as the source does.
    [pending] is the [port.open] call whose callback is outstanding;
    [written] lists the [port.write] calls and [errors] the causes passed
    to [console.error] by tryOpen. *)
Record World := {
  objects : list SerialPort;
  port : option nat;
  opening : bool;
  pending : option nat;
  written : list (nat * Buffer);
  errors : list jsstring
}.

(** [let port = null; let opening = false;] *)
Definition initial : World :=
  {| objects := []; port := None; opening := false; pending := None;
     written := []; errors := [] |}.

(** [port && port.isOpen], giving the open object. *)
Definition open_port (w : World) : option nat :=
  match port w with
  | Some id =>
      match objects w !! id with
      | Some p => if isOpen p then Some id else None
      | None => None
      end
  | None => None
  end.

Definition serialOpen (w : World) : bool :=
  bool_decide (is_Some (open_port w)).

(** The objects that read open: each holds an open handle of the
    operating system. *)
Definition open_handles (w : World) : list SerialPort :=
  filter (fun p => isOpen p = true) (objects w).

(** What a handler sends back.  [Unanswered] is a handler that threw
    outside any [try]: the request gets no reply. *)
Inductive Reply :=
  | Ok_plain
  | Ok_bytes (bytes : nat)
  | Ok_voucher (bytes : nat) (usedDefaults : bool)
  | Ok_open (opened : bool) (p : Json) (b : option Z)
  | Ok_health (serialPath : jsstring) (serialOpen : bool)
  | Failure (status : N) (error : jsstring)
  | Unanswered.

(** The failure kinds of the specification, as the replies of the source. *)
Definition NotOpen : Reply := Failure 503 (lit "serial not open").
Definition InvalidEncoding : Reply := Failure 400 (lit "invalid hex").
Definition MissingPayload_b64 : Reply := Failure 400 (lit "missing b64").
Definition MissingPayload : Reply := Failure 400 (lit "missing binary body").
Definition PayloadTooLarge : Reply :=
  Failure 413 (lit "request entity too large").
Definition Unauthorized : Reply := Failure 401 (lit "unauthorized").

Definition is_success (r : Reply) : bool :=
  match r with
  | Failure _ _ | Unanswered => false
  | _ => true
  end.

(** The outcome the device gives to [port.open], and to [port.write]
    followed by [port.drain]. *)
Inductive OpenResult := Opened | OpenFailed (cause : jsstring).
Inductive WriteResult :=
  | Flushed
  | WriteFailed (err : jsstring)
  | DrainFailed (err : jsstring).

Record Headers := {
  x_bridge_secret : option jsstring;
  authorization : option jsstring
}.

Section Bridge.

Variable cfg : Config.

(** [Buffer.from(b64, 'base64')] on the value of the request; [None] when
    it throws. *)
Variable Buffer_from_base64 : Json -> option Buffer.

Definition authMiddleware (h : Headers) : bool :=
  match BRIDGE_SECRET cfg with
  | [] => true
  | secret =>
      let auth :=
        match x_bridge_secret h with
        | Some (c :: r) => c :: r
        | _ => default [] (authorization h)
        end in
      bool_decide (auth = secret)
      || bool_decide (auth = lit "Bearer " ++ secret)
  end.

(** A route behind authMiddleware. *)
Definition guarded (h : Headers) (handler : World -> World * Reply)
  (w : World) : World * Reply :=
  if authMiddleware h then handler w else (w, Unauthorized).

Definition isHex (o : option Json) : bool :=
  match o with
  | Some (JStr s) =>
      negb (bool_decide (s = []))
      && forallb (fun c => bool_decide (is_Some (unhex c))) s
      && (length s mod 2 =? 0)%nat
  | _ => false
  end.

(** tryOpen up to its [await]: [None] when it returns at once, otherwise
    the object whose [open] callback is awaited. *)
Definition tryOpen_begin (p : Json) (w : World) : World * option nat :=
  if opening w || serialOpen w then (w, None)
  else
    let id := length (objects w) in
    ({| objects := objects w ++
                   [{| path := p; baudRate := BAUD cfg; isOpen := false |}];
        port := Some id; opening := true; pending := Some id;
        written := written w; errors := errors w |}, Some id).

(** tryOpen from the callback of [port.open] on: the [catch] and the
    [finally]. *)
Definition tryOpen_end (id : nat) (r : OpenResult) (w : World) : World :=
  match r with
  | Opened =>
      {| objects := alter (set_isOpen true) id (objects w);
         port := port w; opening := false; pending := None;
         written := written w; errors := errors w |}
  | OpenFailed cause =>
      {| objects := objects w;
         port := None; opening := false; pending := None;
         written := written w; errors := errors w ++ [cause] |}
  end.

(** [close] called on object [id], by the handler of [/close] or by the
    library itself when the device goes away: the object reads closed from
    that call on, and its handle is released later. *)
Definition begin_close (id : nat) (w : World) : World :=
  {| objects := alter (set_isOpen false) id (objects w);
     port := port w; opening := opening w; pending := pending w;
     written := written w; errors := errors w |}.

(** The ['close'] listener tryOpen installs on object [id], run when the
    handle of that object is released: [port = null], whichever object
    [port] is then. *)
Definition on_close (id : nat) (w : World) : World :=
  {| objects := alter (set_isOpen false) id (objects w);
     port := None; opening := opening w; pending := pending w;
     written := written w; errors := errors w |}.

(** pollForPort after [SerialPort.list()] has answered [list]. *)
Definition pollForPort (list : list jsstring) (w : World)
  : World * option nat :=
  if AUTO_OPEN cfg then
    let found :=
      existsb (fun p => bool_decide (p = SERIAL_PATH cfg)
                        || bool_decide (p = toLowerCase (SERIAL_PATH cfg)))
              list in
    if found && negb (serialOpen w)
    then tryOpen_begin (JStr (SERIAL_PATH cfg)) w
    else (w, None)
  else (w, None).

Definition get_health (w : World) : Reply :=
  Ok_health (SERIAL_PATH cfg) (serialOpen w).

(** [app.post('/open')]: [p] and [b] as the handler computes them; [None]
    when [parseInt] throws on its argument. *)
Definition open_args (body : option Json) : option (Json * option Z) :=
  let p := match prop body "path" with
           | Some v => if truthy v then v else JStr (SERIAL_PATH cfg)
           | None => JStr (SERIAL_PATH cfg)
           end in
  let b := match prop body "baud" with
           | Some v => if truthy v then v else JNum (Z_toString (BAUD cfg))
           | None => JNum (Z_toString (BAUD cfg))
           end in
  t ← js_String b; Some (p, parseInt10 t).

Definition open_reply (p : Json) (b : option Z) (w : World) : Reply :=
  Ok_open (serialOpen w) p b.

(** tryOpen as a whole, when nothing else runs during its [await]. *)
Definition tryOpen (p : Json) (r : OpenResult) (w : World) : World :=
  let (w1, awaited) := tryOpen_begin p w in
  match awaited with
  | Some id => tryOpen_end id r w1
  | None => w1
  end.

(** The handler as a whole.  tryOpen never throws, so the [catch] of the
    handler is never entered. *)
Definition post_open (body : option Json) (r : OpenResult) (w : World)
  : World * Reply :=
  match open_args body with
  | None => (w, Unanswered)
  | Some (p, b) => let w' := tryOpen p r w in (w', open_reply p b w')
  end.

(** [app.post('/close')] up to its [await]: on an open link [port.close]
    is called on the open object, which reads closed from that call on
    while [port] still refers to it; [None] when the link does not read
    open, and the handler then answers at once. *)
Definition post_close_begin (w : World) : World * option nat :=
  match open_port w with
  | Some id => (begin_close id w, Some id)
  | None => (w, None)
  end.

(** [/close] from the release of the handle of object [id] on: the
    ['close'] listener runs, then the callback of [port.close] resumes the
    handler, which sets [port = null] and answers. *)
Definition post_close_end (id : nat) (w : World) : World * Reply :=
  let w1 := on_close id w in
  ({| objects := objects w1; port := None; opening := opening w1;
      pending := pending w1; written := written w1;
      errors := errors w1 |}, Ok_plain).

(** The handler as a whole, when nothing else runs during its [await]. *)
Definition post_close (w : World) : World * Reply :=
  let (w1, awaited) := post_close_begin w in
  match awaited with
  | Some id => post_close_end id w1
  | None => (w1, Ok_plain)
  end.

(** [port.write(buf, cb)] with [port.drain] in its callback. *)
Definition write_and_drain (id : nat) (buf : Buffer) (io : WriteResult)
  (ok : Reply) (w : World) : World * Reply :=
  ({| objects := objects w; port := port w; opening := opening w;
      pending := pending w; written := written w ++ [(id, buf)];
      errors := errors w |},
   match io with
   | Flushed => ok
   | WriteFailed e => Failure 500 e
   | DrainFailed e => Failure 500 e
   end).

(** [app.post('/write-hex')] *)
Definition post_write_hex (body : option Json) (io : WriteResult)
  (w : World) : World * Reply :=
  let hex := prop body "hex" in
  if negb (isHex hex) then (w, InvalidEncoding)
  else
    match open_port w with
    | None => (w, NotOpen)
    | Some id =>
        let buf := Buffer_from_hex
                     (match hex with Some (JStr s) => s | _ => [] end) in
        write_and_drain id buf io (Ok_bytes (length buf)) w
    end.

(** [app.post('/write-base64')] *)
Definition post_write_base64 (body : option Json) (io : WriteResult)
  (w : World) : World * Reply :=
  match prop body "b64" with
  | Some b64 =>
      if truthy b64 then
        match open_port w with
        | None => (w, NotOpen)
        | Some id =>
            match Buffer_from_base64 b64 with
            | Some buf => write_and_drain id buf io (Ok_bytes (length buf)) w
            | None => (w, Unanswered)
            end
        end
      else (w, MissingPayload_b64)
  | None => (w, MissingPayload_b64)
  end.

(** The body of a request to [/write-binary] once the parsers have run. *)
Inductive ReqBody :=
  | BodyUndefined
  | BodyJson (v : Json)
  | BodyBuffer (b : Buffer).

(** [app.post('/write-binary')] *)
Definition post_write_binary (body : ReqBody) (io : WriteResult)
  (w : World) : World * Reply :=
  match body with
  | BodyBuffer buf =>
      match open_port w with
      | None => (w, NotOpen)
      | Some id => write_and_drain id buf io (Ok_bytes (length buf)) w
      end
  | _ => (w, MissingPayload)
  end.

(** [express.raw({ type: 'application/octet-stream', limit: '2mb' })] as
    body-parser documents it: a request that has a body of that type is
    read into a Buffer, and refused when longer than the limit; any other
    request keeps the body the JSON parser left. *)
Record BinaryRequest := {
  octet_stream : bool;
  has_body : bool;
  payload : Buffer;
  parsed : option Json
}.

Definition limit_2mb : N := 2 * 1024 * 1024.

Definition express_raw (req : BinaryRequest) : ReqBody + Reply :=
  if has_body req && octet_stream req then
    if limit_2mb <? N.of_nat (length (payload req)) then inr PayloadTooLarge
    else inl (BodyBuffer (payload req))
  else inl (match parsed req with
            | Some v => BodyJson v
            | None => BodyUndefined
            end).

Definition route_write_binary (req : BinaryRequest) (io : WriteResult)
  (w : World) : World * Reply :=
  match express_raw req with
  | inl body => post_write_binary body io w
  | inr e => (w, e)
  end.

(** ** print-voucher *)

(** [now = new Date()], through the two texts the handler takes from it. *)
Record Clock := {
  toDateString : jsstring;
  toISOString : jsstring
}.

Definition defaultStation : gmap (list N) Json :=
  list_to_map
    [ (lit "name", JStr (lit "My Station"));
      (lit "address", JStr (lit "123 Main St"));
      (lit "city", JStr (lit "Yangon"));
      (lit "state", JStr (lit "MM"));
      (lit "phone1", JStr (lit "09-123456789"));
      (lit "phone2", JStr (lit "09-987654321")) ].

Definition defaultVoucher (now : Clock) : gmap (list N) Json :=
  list_to_map
    [ (lit "dailyReportDate", JStr (toDateString now));
      (lit "createAt", JStr (toISOString now));
      (lit "nozzleNo", JStr (lit "01"));
      (lit "vocono", JStr (lit "VC123456"));
      (lit "salePrice", JStr (lit "2530"));
      (lit "saleLiter", JStr (lit "10.50"));
      (lit "totalPrice", JStr (lit "26565"));
      (lit "fuelType", JStr (lit "OCTANE 95")) ].

(** The merged records of the handler. *)
Definition station_of (body : option Json) : gmap (list N) Json :=
  let body := Some (or_empty body) in
  Object_assign (Object_assign ∅ (JObj defaultStation))
                (or_empty (prop body "station")).

Definition voucher_of (now : Clock) (body : option Json)
  : gmap (list N) Json :=
  let body := Some (or_empty body) in
  Object_assign
    (Object_assign (Object_assign ∅ (JObj (defaultVoucher now)))
                   (or_empty (prop body "voucher")))
    (or_empty (prop body "data")).

(** The twelve hex texts the handler computes before it fills the
    template; [None] when a conversion to a string throws. *)
Record VoucherHex := {
  stationName : jsstring;
  location : jsstring;
  phone1Hex : jsstring;
  phone2Hex : jsstring;
  dateHex : jsstring;
  timeHex : jsstring;
  nozzleHex : jsstring;
  voconoHex : jsstring;
  basePriceHex : jsstring;
  literHex : jsstring;
  totalHex : jsstring;
  fuelHex : jsstring
}.

Definition voucher_hex (now : Clock) (body : option Json)
  : option VoucherHex :=
  let station := station_of body in
  let voucher := voucher_of now body in
  let text (k : string) := String_of (voucher !! lit k) in
  x1 ← asciiToHex_of (station !! lit "name");
  a ← String_of (station !! lit "address");
  c ← String_of (station !! lit "city");
  s ← String_of (station !! lit "state");
  x3 ← asciiToHex_of (station !! lit "phone1");
  x4 ← asciiToHex_of (station !! lit "phone2");
  x5 ← text "dailyReportDate";
  x6 ← text "createAt";
  x7 ← text "nozzleNo";
  x8 ← text "vocono";
  x9 ← text "salePrice";
  x10 ← text "saleLiter";
  x11 ← text "totalPrice";
  x12 ← text "fuelType";
  Some {| stationName := x1;
          location := asciiToHex (a ++ lit ", " ++ c ++ lit ", " ++ s);
          phone1Hex := x3;
          phone2Hex := x4;
          dateHex := asciiToHex x5;
          timeHex := asciiToHex (slice 11 19 x6);
          nozzleHex := asciiToHex x7;
          voconoHex := asciiToHex x8;
          basePriceHex := asciiToHex x9;
          literHex := asciiToHex x10;
          totalHex := asciiToHex x11;
          fuelHex := asciiToHex x12 |}.

Definition rule : jsstring :=
  lit "2D2D2D2D2D2D2D2D2D2D2D2D2D2D2D2D2D2D2D2D2D2D2D2D2D2D2D2D0A".

Definition hexChunks (f : VoucherHex) : list jsstring :=
  [ lit "1B401B6101" ++ stationName f ++ lit "0A";
    location f ++ lit "0A";
    phone1Hex f ++ lit "2C20" ++ phone2Hex f ++ lit "0A";
    lit "1B6100";
    rule;
    lit "564F434F4E4F202020" ++ voconoHex f ++ lit "0A";
    lit "444154452020202020" ++ dateHex f ++ lit "0A";
    lit "54494D452020202020" ++ timeHex f ++ lit "0A";
    lit "4E4F5A5A4C45202020" ++ nozzleHex f ++ lit "0A";
    rule;
    lit "4655454C20202020" ++ fuelHex f ++ lit "0A";
    lit "4241534520505249434520202020" ++ basePriceHex f
      ++ lit "204D4D4B202F204C495445520A";
    lit "53414C45204C4954455253202020" ++ literHex f ++ lit "204C490A";
    lit "544F54414C202020202020202020" ++ totalHex f ++ lit "204D4D4B0A";
    lit "202020202020202020202020202028494E434C555349564520544158290A";
    rule;
    lit "1B6101";
    lit "5448414E4B20594F5520464F52205649534954494E470A";
    lit "1B6401";
    lit "1D564100" ].

Definition fullHex (f : VoucherHex) : jsstring := concat (hexChunks f).

(** [!req.body || Object.keys(req.body).length === 0] *)
Definition usedDefaults_of (body : option Json) : bool :=
  match body with
  | None => true
  | Some v => negb (truthy v) || (keys_length v =? 0)%nat
  end.

Definition TypeError : jsstring :=
  lit "TypeError: Cannot convert object to primitive value".

(** [app.post('/print-voucher')] *)
Definition post_print_voucher (now : Clock) (body : option Json)
  (io : WriteResult) (w : World) : World * Reply :=
  match open_port w with
  | None => (w, NotOpen)
  | Some id =>
      match voucher_hex now body with
      | None => (w, Failure 500 TypeError)
      | Some f =>
          let buf := Buffer_from_hex (fullHex f) in
          write_and_drain id buf io
            (Ok_voucher (length buf) (usedDefaults_of body)) w
      end
  end.

(** ** The event loop

    The handlers run one at a time; another may run while tryOpen awaits
    the callback of [port.open] and while [/close] awaits the callback of
    [port.close].  An event is one such uninterrupted run: [EvOpen] and
    [EvClose] are the handlers up to their [await], [EvOpened] is the rest
    of tryOpen, [EvUnplug] the loss of the device, on which the library
    calls [close], and [EvClosed] the release of a handle: the ['close']
    listener and, if [/close] awaits that release, the rest of it. *)
Inductive Event :=
  | EvOpen (body : option Json)
  | EvPoll (list : list jsstring)
  | EvOpened (id : nat) (r : OpenResult)
  | EvClose
  | EvClosed (id : nat)
  | EvUnplug (id : nat)
  | EvWriteHex (body : option Json) (io : WriteResult)
  | EvWriteBase64 (body : option Json) (io : WriteResult)
  | EvWriteBinary (req : BinaryRequest) (io : WriteResult)
  | EvPrintVoucher (now : Clock) (body : option Json) (io : WriteResult).

Definition run (e : Event) (w : World) : World :=
  match e with
  | EvOpen body =>
      match open_args body with
      | Some (p, _) => fst (tryOpen_begin p w)
      | None => w
      end
  | EvPoll list => fst (pollForPort list w)
  | EvOpened id r => tryOpen_end id r w
  | EvClose => fst (post_close_begin w)
  | EvClosed id => fst (post_close_end id w)
  | EvUnplug id => begin_close id w
  | EvWriteHex body io => fst (post_write_hex body io w)
  | EvWriteBase64 body io => fst (post_write_base64 body io w)
  | EvWriteBinary req io => fst (route_write_binary req io w)
  | EvPrintVoucher now body io => fst (post_print_voucher now body io w)
  end.

(** The state of the loop: the state of the module, and the objects on
    which [port.close] was called and whose handle is not released yet. *)
Record Loop := {
  world : World;
  closing : list nat
}.

Definition start : Loop := {| world := initial; closing := [] |}.

Definition step (e : Event) (l : Loop) : Loop :=
  {| world := run e (world l);
     closing :=
       match e with
       | EvClose =>
           match open_port (world l) with
           | Some id => closing l ++ [id]
           | None => closing l
           end
       | EvClosed id => filter (fun j => j <> id) (closing l)
       | EvUnplug id => closing l ++ [id]
       | _ => closing l
       end |}.

Definition steps (es : list Event) (l : Loop) : Loop :=
  fold_left (fun l e => step e l) es l.

(** The callback of [port.open] comes for the awaited object only, a
    handle is released only for an object being closed, and only an object
    that reads open can be taken away by the device. *)
Definition enabled (e : Event) (l : Loop) : Prop :=
  match e with
  | EvOpened id _ => pending (world l) = Some id
  | EvClosed id => id ∈ closing l
  | EvUnplug id =>
      exists p, objects (world l) !! id = Some p /\ isOpen p = true
  | _ => True
  end.

Inductive reachable : Loop -> Prop :=
  | reachable_start : reachable start
  | reachable_step l e : reachable l -> enabled e l -> reachable (step e l).

End Bridge.

(** ** What the claims speak of *)

(** The uppercase hex digit of a value below sixteen. *)
Definition HEX (d : N) : N := if d <? 10 then 48 + d else 55 + d.

(** A code unit written in full in uppercase hex, on at least two digits. *)
Definition unit_hex (c : N) : jsstring :=
  if c <? 256 then [HEX (c / 16); HEX (c mod 16)]
  else if c <? 4096 then [HEX (c / 256); HEX (c / 16 mod 16); HEX (c mod 16)]
  else [HEX (c / 4096); HEX (c / 256 mod 16); HEX (c / 16 mod 16);
        HEX (c mod 16)].

(** A hexadecimal digit character: [0-9], [A-F] or [a-f]. *)
Definition hex_char (c : N) : Prop :=
  (48 <= c <= 57) \/ (65 <= c <= 70) \/ (97 <= c <= 102).

(** [x] occurs in [l] as a run of consecutive elements. *)
Definition occurs_in {A} (x l : list A) : Prop :=
  exists pre post, l = pre ++ x ++ post.

(** The value is a non-empty string of an even number of hex digits. *)
Definition hex_string (o : option Json) (s : jsstring) : Prop :=
  o = Some (JStr s) /\ s <> [] /\ Forall hex_char s
  /\ (length s mod 2 = 0)%nat.

(** A string of ASCII characters. *)
Definition is_ascii (s : jsstring) : bool := forallb (fun c => c <? 128) s.

(** A value that is not an object, and a record all of whose fields are
    such values: converting them to strings cannot throw. *)
Definition primitive (v : Json) : bool :=
  match v with
  | JArr _ | JObj _ => false
  | _ => true
  end.

Definition plain (m : gmap (list N) Json) : bool :=
  forallb (fun kv => primitive kv.2) (map_to_list m).

(** ** Concrete inputs *)

Definition cfg0 : Config :=
  {| SERIAL_PATH := lit "/dev/ttyUSB0"; BAUD := 9600;
     BRIDGE_SECRET := []; AUTO_OPEN := true |}.

Definition now0 : Clock :=
  {| toDateString := lit "Fri Sep 26 2025";
     toISOString := lit "2025-09-26T12:34:56.000Z" |}.

(** [{ k: v }] *)
Definition obj1 (k : string) (v : Json) : Json := JObj {[ lit k := v ]}.

(** [{ voucher: { createAt: "2025" } }] *)
Definition short_createAt : option Json :=
  Some (obj1 "voucher" (obj1 "createAt" (JStr (lit "2025")))).

(** [{ station: {}, voucher: {} }] *)
Definition empty_records : option Json :=
  Some (JObj (<[lit "station" := JObj ∅]> {[ lit "voucher" := JObj ∅ ]})).

(** A request to [/write-binary] that carries [b] as an octet stream. *)
Definition binary0 (b : Buffer) : BinaryRequest :=
  {| octet_stream := true; has_body := true; payload := b; parsed := None |}.

(** The link after a first [/open] that succeeded. *)
Definition opened0 : World := fst (post_open cfg0 None Opened initial).

(** The hex texts of a request that supplies nothing. *)
Definition default_hex (now : Clock) : VoucherHex :=
  {| stationName := asciiToHex (lit "My Station");
     location := asciiToHex (lit "123 Main St, Yangon, MM");
     phone1Hex := asciiToHex (lit "09-123456789");
     phone2Hex := asciiToHex (lit "09-987654321");
     dateHex := asciiToHex (toDateString now);
     timeHex := asciiToHex (slice 11 19 (toISOString now));
     nozzleHex := asciiToHex (lit "01");
     voconoHex := asciiToHex (lit "VC123456");
     basePriceHex := asciiToHex (lit "2530");
     literHex := asciiToHex (lit "10.50");
     totalHex := asciiToHex (lit "26565");
     fuelHex := asciiToHex (lit "OCTANE 95") |}.

(** The receipt of the defaults up to the voucher number: the header, the
    first rule and the VOCONO line, which do not depend on the clock. *)
Definition default_head : jsstring :=
  lit "1B401B6101" ++ asciiToHex (lit "My Station") ++ lit "0A"
  ++ asciiToHex (lit "123 Main St, Yangon, MM") ++ lit "0A"
  ++ asciiToHex (lit "09-123456789") ++ lit "2C20"
  ++ asciiToHex (lit "09-987654321") ++ lit "0A"
  ++ lit "1B6100" ++ rule
  ++ lit "564F434F4E4F202020" ++ asciiToHex (lit "VC123456") ++ lit "0A".

(** ** The receipt as text *)

(** The twelve texts of a voucher, before asciiToHex turns them to hex. *)
Record VoucherText := {
  name_text : jsstring;
  location_text : jsstring;
  phone1_text : jsstring;
  phone2_text : jsstring;
  date_text : jsstring;
  time_text : jsstring;
  nozzle_text : jsstring;
  vocono_text : jsstring;
  price_text : jsstring;
  liter_text : jsstring;
  total_text : jsstring;
  fuel_text : jsstring
}.

Definition hex_of_text (t : VoucherText) : VoucherHex :=
  {| stationName := asciiToHex (name_text t);
     location := asciiToHex (location_text t);
     phone1Hex := asciiToHex (phone1_text t);
     phone2Hex := asciiToHex (phone2_text t);
     dateHex := asciiToHex (date_text t);
     timeHex := asciiToHex (time_text t);
     nozzleHex := asciiToHex (nozzle_text t);
     voconoHex := asciiToHex (vocono_text t);
     basePriceHex := asciiToHex (price_text t);
     literHex := asciiToHex (liter_text t);
     totalHex := asciiToHex (total_text t);
     fuelHex := asciiToHex (fuel_text t) |}.

(** The text asciiToHex works on when handed any value. *)
Definition text_or_empty (o : option Json) : option jsstring :=
  match o with
  | None | Some JNull => Some []
  | Some v => js_String v
  end.

(** The texts the handler of print-voucher derives from a request. *)
Definition voucher_text (now : Clock) (body : option Json)
  : option VoucherText :=
  let station := station_of body in
  let voucher := voucher_of now body in
  let text (k : string) := String_of (voucher !! lit k) in
  x1 ← text_or_empty (station !! lit "name");
  a ← String_of (station !! lit "address");
  c ← String_of (station !! lit "city");
  s ← String_of (station !! lit "state");
  x3 ← text_or_empty (station !! lit "phone1");
  x4 ← text_or_empty (station !! lit "phone2");
  x5 ← text "dailyReportDate";
  x6 ← text "createAt";
  x7 ← text "nozzleNo";
  x8 ← text "vocono";
  x9 ← text "salePrice";
  x10 ← text "saleLiter";
  x11 ← text "totalPrice";
  x12 ← text "fuelType";
  Some {| name_text := x1;
          location_text := a ++ lit ", " ++ c ++ lit ", " ++ s;
          phone1_text := x3;
          phone2_text := x4;
          date_text := x5;
          time_text := slice 11 19 x6;
          nozzle_text := x7;
          vocono_text := x8;
          price_text := x9;
          liter_text := x10;
          total_text := x11;
          fuel_text := x12 |}.

(** A string whose code units are bytes. *)
Definition is_bytes (s : jsstring) : Prop := Forall (fun c => c <= 255) s.

Definition bytes_only (t : VoucherText) : Prop :=
  is_bytes (name_text t) /\ is_bytes (location_text t)
  /\ is_bytes (phone1_text t) /\ is_bytes (phone2_text t)
  /\ is_bytes (date_text t) /\ is_bytes (time_text t)
  /\ is_bytes (nozzle_text t) /\ is_bytes (vocono_text t)
  /\ is_bytes (price_text t) /\ is_bytes (liter_text t)
  /\ is_bytes (total_text t) /\ is_bytes (fuel_text t).

(** The receipt as the printer reads it: ESC @ and ESC a select the
    alignment, ESC d feeds a line and GS V cuts the paper. *)
Definition dashes : Buffer := repeat 45 28 ++ [10].

Definition receipt_lines (t : VoucherText) : list Buffer :=
  [ [27; 64; 27; 97; 1] ++ name_text t ++ [10];
    location_text t ++ [10];
    phone1_text t ++ lit ", " ++ phone2_text t ++ [10];
    [27; 97; 0];
    dashes;
    lit "VOCONO   " ++ vocono_text t ++ [10];
    lit "DATE     " ++ date_text t ++ [10];
    lit "TIME     " ++ time_text t ++ [10];
    lit "NOZZLE   " ++ nozzle_text t ++ [10];
    dashes;
    lit "FUEL    " ++ fuel_text t ++ [10];
    lit "BASE PRICE    " ++ price_text t ++ lit " MMK / LITER" ++ [10];
    lit "SALE LITERS   " ++ liter_text t ++ lit " LI" ++ [10];
    lit "TOTAL         " ++ total_text t ++ lit " MMK" ++ [10];
    lit "              (INCLUSIVE TAX)" ++ [10];
    dashes;
    [27; 97; 1];
    lit "THANK YOU FOR VISITING" ++ [10];
    [27; 100; 1];
    [29; 86; 65; 0] ].

Definition receipt_bytes (t : VoucherText) : Buffer :=
  concat (receipt_lines t).

(** The texts of a request that supplies nothing. *)
Definition default_text (now : Clock) : VoucherText :=
  {| name_text := lit "My Station";
     location_text := lit "123 Main St, Yangon, MM";
     phone1_text := lit "09-123456789";
     phone2_text := lit "09-987654321";
     date_text := toDateString now;
     time_text := slice 11 19 (toISOString now);
     nozzle_text := lit "01";
     vocono_text := lit "VC123456";
     price_text := lit "2530";
     liter_text := lit "10.50";
     total_text := lit "26565";
     fuel_text := lit "OCTANE 95" |}.

(** ** The mobile client (index.tsx) *)

Module Mobile.

(** The interfaces of the client.  A field with a [toString] method is
    carried as the text that method gives. *)
Record StationInfo := {
  name : jsstring;
  address : jsstring;
  city : jsstring;
  state : jsstring;
  phone1 : jsstring;
  phone2 : jsstring
}.

Record VoucherData := {
  dailyReportDate : jsstring;
  createAt : jsstring;
  nozzleNo : jsstring;
  vocono : jsstring;
  salePrice : jsstring;
  saleLiter : jsstring;
  totalPrice : jsstring;
  fuelType : jsstring
}.

(** The [commands] array of sendToPrinter. *)
Definition commands (stationInfo : StationInfo) (data : VoucherData)
  : list jsstring :=
  let stationName := convertToHex (name stationInfo) in
  let location :=
    convertToHex (address stationInfo ++ lit ", " ++ city stationInfo
                  ++ lit ", " ++ state stationInfo) in
  let phone1Hex := convertToHex (phone1 stationInfo) in
  let phone2Hex := convertToHex (phone2 stationInfo) in
  let date := convertToHex (dailyReportDate data) in
  let time := convertToHex (slice 11 19 (createAt data)) in
  let noz := convertToHex (nozzleNo data) in
  let vocono := convertToHex (vocono data) in
  let basePrice := convertToHex (salePrice data) in
  let liter := convertToHex (saleLiter data) in
  let total := convertToHex (totalPrice data) in
  let fuel := convertToHex (fuelType data) in
  [ lit "1B401B6101" ++ stationName ++ lit "0A";
    location ++ lit "0A";
    phone1Hex ++ lit "2C20" ++ phone2Hex ++ lit "0A";
    lit "1B6100";
    lit "2D2D2D2D2D2D2D2D2D2D2D2D2D2D2D2D2D2D2D2D2D2D2D2D2D2D2D2D0A";
    lit "564F434F4E4F202020" ++ vocono ++ lit "0A";
    lit "444154452020202020" ++ date ++ lit "0A";
    lit "54494D452020202020" ++ time ++ lit "0A";
    lit "4E4F5A5A4C45202020" ++ noz ++ lit "0A";
    lit "2D2D2D2D2D2D2D2D2D2D2D2D2D2D2D2D2D2D2D2D2D2D2D2D2D2D2D2D0A";
    lit "4655454C20202020" ++ fuel ++ lit "0A";
    lit "4241534520505249434520202020" ++ basePrice
      ++ lit "204D4D4B202F204C495445520A";
    lit "53414C45204C4954455253202020" ++ liter ++ lit "204C490A";
    lit "544F54414C202020202020202020" ++ total ++ lit "204D4D4B0A";
    lit "202020202020202020202020202028494E434C555349564520544158290A";
    lit "2D2D2D2D2D2D2D2D2D2D2D2D2D2D2D2D2D2D2D2D2D2D2D2D2D2D2D2D0A";
    lit "1B6101";
    lit "5448414E4B20594F5520464F52205649534954494E470A";
    lit "1B6401";
    lit "1D564100" ].

(** The texts of the same voucher, as the bridge would be given them. *)
Definition text_of (stationInfo : StationInfo) (data : VoucherData)
  : VoucherText :=
  {| name_text := name stationInfo;
     location_text := address stationInfo ++ lit ", " ++ city stationInfo
                      ++ lit ", " ++ state stationInfo;
     phone1_text := phone1 stationInfo;
     phone2_text := phone2 stationInfo;
     date_text := dailyReportDate data;
     time_text := slice 11 19 (createAt data);
     nozzle_text := nozzleNo data;
     vocono_text := Mobile.vocono data;
     price_text := salePrice data;
     liter_text := saleLiter data;
     total_text := totalPrice data;
     fuel_text := fuelType data |}.

End Mobile.

(** Every code unit of every text is 0x10 or more. *)
Definition no_low_units (t : VoucherText) : Prop :=
  let ok (s : jsstring) := Forall (fun c => 16 <= c < 65536) s in
  ok (name_text t) /\ ok (location_text t) /\ ok (phone1_text t)
  /\ ok (phone2_text t) /\ ok (date_text t) /\ ok (time_text t)
  /\ ok (nozzle_text t) /\ ok (vocono_text t) /\ ok (price_text t)
  /\ ok (liter_text t) /\ ok (total_text t) /\ ok (fuel_text t).

(** ** list-ports.js *)

Module ListPorts.

(** An entry of [SerialPort.list()], with the fields the script reads. *)
Record PortInfo := {
  path : jsstring;
  vendorId : option jsstring;
  productId : option jsstring;
  manufacturer : option jsstring
}.

(** [if (p.k) console.log(label, p.k)] *)
Definition optional_line (label : string) (o : option jsstring)
  : list jsstring :=
  match o with
  | Some (c :: r) => [lit label ++ 32 :: c :: r]
  | _ => []
  end.

(** What the callback of [ports.forEach] prints for entry [i]. *)
Definition block (i : nat) (p : PortInfo) : list jsstring :=
  [ 35 :: Number_toString 10 (N.of_nat (i + 1));
    lit "  path:" ++ 32 :: path p ]
  ++ optional_line "  vendorId:" (vendorId p)
  ++ optional_line "  productId:" (productId p)
  ++ optional_line "  manufacturer:" (manufacturer p)
  ++ [lit "---"].

(** The lines the script prints when [SerialPort.list()] answers. *)
Definition report (ports : list PortInfo) : list jsstring :=
  match ports with
  | [] => [lit "No serial ports found."]
  | _ => lit "Detected serial ports:" :: concat (imap block ports)
  end.

End ListPorts.

(** A station and a sale as the mobile client holds them. *)
Definition station0 : Mobile.StationInfo :=
  {| Mobile.name := lit "Fuel Station A"; Mobile.address := lit "42 Street";
     Mobile.city := lit "Yangon"; Mobile.state := lit "MM";
     Mobile.phone1 := lit "09-111111111";
     Mobile.phone2 := lit "09-222222222" |}.

Definition sale0 : Mobile.VoucherData :=
  {| Mobile.dailyReportDate := lit "Fri Sep 26 2025";
     Mobile.createAt := lit "2025-09-26T14:23:45.000Z";
     Mobile.nozzleNo := lit "03"; Mobile.vocono := lit "VC987654";
     Mobile.salePrice := lit "2530"; Mobile.saleLiter := lit "5.25";
     Mobile.totalPrice := lit "13282.5"; Mobile.fuelType := lit "DIESEL" |}.

(** Two entries of [SerialPort.list()]. *)
Definition ports0 : list ListPorts.PortInfo :=
  [ {| ListPorts.path := lit "/dev/ttyUSB0";
       ListPorts.vendorId := Some (lit "1a86");
       ListPorts.productId := Some (lit "7523");
       ListPorts.manufacturer := None |};
    {| ListPorts.path := lit "/dev/ttyS0"; ListPorts.vendorId := None;
       ListPorts.productId := None; ListPorts.manufacturer := Some [] |} ].

(** The link while the first [/open] is awaited. *)
Definition opening0 : World :=
  run cfg0 (fun _ => None) (EvOpen None) initial.

(** An [/open] that arrives while [/close] awaits the callback of
    [port.close]: the link is opened, [/close] is called, [/open] asks for
    another device and gets it, the first handle is released, and [/open]
    is called once more. *)
Definition close_race : list Event :=
  [ EvOpen None; EvOpened 0 Opened;
    EvClose;
    EvOpen (Some (obj1 "path" (JStr (lit "/dev/ttyS5")))); EvOpened 1 Opened;
    EvClosed 0;
    EvOpen None; EvOpened 2 Opened ].

(** The link when the handle of a first port is released while the
    [open] of a second one is awaited. *)
Definition closed_while_opening : World :=
  world (steps cfg0 (fun _ => None)
           [ EvOpen None; EvOpened 0 Opened; EvClose;
             EvOpen (Some (obj1 "path" (JStr (lit "/dev/ttyS5"))));
             EvClosed 0 ] start).

(** A decimal digit character. *)
Definition is_digit (c : N) : Prop := 48 <= c <= 57.

(** The line that closes the block of a port in the report. *)
Definition is_separator (l : jsstring) : Prop := l = lit "---".

(** * Properties *)

(** ** Numbers to digits *)

(** The facts [lia] needs about a quotient and a remainder by sixteen. *)
Ltac div_mod_16 c :=
  pose proof (N.Div0.div_mod c 16);
  pose proof (N.mod_lt c 16 ltac:(lia));
  pose proof (N.le_0_l (c mod 16));
  pose proof (N.le_0_l (c / 16)).

Lemma digits_aux_fuel radix (Hr : 2 <= radix) f1 :
  forall f2 n acc,
    n < radix ^ N.of_nat f1 -> n < radix ^ N.of_nat f2 ->
    digits_aux radix (S f1) n acc = digits_aux radix (S f2) n acc.
Proof.
  induction f1 as [|f1 IH]; intros f2 n acc H1 H2.
  - simpl in H1. assert (Hlt : (n <? radix) = true) by (apply N.ltb_lt; lia).
    simpl. rewrite Hlt. reflexivity.
  - cbn [digits_aux]. destruct (n <? radix) eqn:Hn; [reflexivity|].
    apply N.ltb_ge in Hn.
    destruct f2 as [|f2]; [simpl in H2; lia|].
    set (acc' := digit_unit (n mod radix) :: acc).
    change (digits_aux radix (S f1) (n / radix) acc'
            = digits_aux radix (S f2) (n / radix) acc').
    rewrite Nat2N.inj_succ, N.pow_succ_r' in H1, H2.
    apply IH; apply N.Div0.div_lt_upper_bound; assumption.
Qed.

Lemma Number_toString_fuel radix (Hr : 2 <= radix) n k :
  n < radix ^ N.of_nat k ->
  Number_toString radix n = digits_aux radix (S k) n [].
Proof.
  intros Hk. unfold Number_toString. apply digits_aux_fuel; try assumption.
  rewrite N2Nat.id.
  eapply N.lt_le_trans; [apply N.size_gt|].
  apply N.pow_le_mono_l. lia.
Qed.

Lemma upper_digit_unit d : d < 16 -> upper_unit (digit_unit d) = HEX d.
Proof.
  intros Hd. unfold upper_unit, digit_unit, HEX.
  destruct (d <? 10) eqn:E.
  - apply N.ltb_lt in E.
    replace (97 <=? 48 + d) with false by (symmetry; apply N.leb_gt; lia).
    reflexivity.
  - apply N.ltb_ge in E.
    replace (97 <=? 87 + d) with true by (symmetry; apply N.leb_le; lia).
    replace (87 + d <=? 122) with true by (symmetry; apply N.leb_le; lia).
    simpl. lia.
Qed.

Lemma unit_hex_correct c :
  c < 65536 -> toUpperCase (padStart2 (toString16 c)) = unit_hex c.
Proof.
  intros Hc. unfold toString16.
  rewrite (Number_toString_fuel 16 ltac:(lia) c 4) by (cbn; lia).
  assert (D2 : c / 16 / 16 = c / 256) by apply N.Div0.div_div.
  assert (D3 : c / 16 / 16 / 16 = c / 4096)
    by (rewrite !N.Div0.div_div; reflexivity).
  div_mod_16 c; div_mod_16 (c / 16); div_mod_16 (c / 16 / 16).
  unfold unit_hex. cbn [digits_aux].
  destruct (c <? 16) eqn:E1; [apply N.ltb_lt in E1 | apply N.ltb_ge in E1].
  { replace (c <? 256) with true by (symmetry; apply N.ltb_lt; lia).
    rewrite N.div_small, N.mod_small by assumption.
    cbn. rewrite upper_digit_unit by assumption. reflexivity. }
  destruct (c / 16 <? 16) eqn:E2; [apply N.ltb_lt in E2 | apply N.ltb_ge in E2].
  { replace (c <? 256) with true by (symmetry; apply N.ltb_lt; lia).
    cbn. rewrite !upper_digit_unit by lia. reflexivity. }
  replace (c <? 256) with false by (symmetry; apply N.ltb_ge; lia).
  destruct (c / 16 / 16 <? 16) eqn:E3;
    [apply N.ltb_lt in E3 | apply N.ltb_ge in E3].
  { replace (c <? 4096) with true by (symmetry; apply N.ltb_lt; lia).
    cbn. rewrite !upper_digit_unit by lia. rewrite D2. reflexivity. }
  replace (c <? 4096) with false by (symmetry; apply N.ltb_ge; lia).
  replace (c / 16 / 16 / 16 <? 16) with true by (symmetry; apply N.ltb_lt; lia).
  cbn. rewrite !upper_digit_unit by lia. rewrite D3, D2. reflexivity.
Qed.

Lemma fold_left_append {A B} (f : B -> list A) (s : list B) (acc : list A) :
  fold_left (fun out c => out ++ f c) s acc = acc ++ concat (map f s).
Proof.
  revert acc. induction s as [|c s IH]; intros acc; simpl.
  - symmetry. apply app_nil_r.
  - rewrite IH. symmetry. apply app_assoc.
Qed.

Lemma asciiToHex_cons c s :
  asciiToHex (c :: s)
  = toUpperCase (padStart2 (toString16 c)) ++ asciiToHex s.
Proof.
  unfold asciiToHex, toUpperCase. rewrite !fold_left_append. simpl.
  rewrite map_app. reflexivity.
Qed.

Lemma asciiToHex_app s t : asciiToHex (s ++ t) = asciiToHex s ++ asciiToHex t.
Proof.
  induction s as [|c s IH]; [reflexivity|].
  simpl. rewrite !asciiToHex_cons, IH. apply app_assoc.
Qed.

Lemma asciiToHex_unit_hex s :
  Forall (fun c => c < 65536) s ->
  asciiToHex s = concat (map unit_hex s).
Proof.
  induction 1 as [|c s Hc _ IH]; [reflexivity|].
  rewrite asciiToHex_cons, unit_hex_correct, IH by assumption. reflexivity.
Qed.

(** What asciiToHex writes: every code unit in full, in uppercase hex and
    in order, on two digits for a code unit up to 0xFF (so the text is
    twice as long as such a string) and on three or four digits for a
    larger one. *)
Theorem asciiToHex_writes_units_in_full (s : jsstring) :
  Forall (fun c => c < 65536) s ->
  asciiToHex s = concat (map unit_hex s)
  /\ (Forall (fun c => c <= 255) s ->
      length (asciiToHex s) = (2 * length s)%nat)
  /\ (forall c, c ∈ s -> 255 < c ->
      (3 <= length (unit_hex c) <= 4)%nat /\ asciiToHex [c] = unit_hex c).
Proof.
  intros Hs. split; [apply asciiToHex_unit_hex, Hs|]. split.
  - intros Hb. rewrite asciiToHex_unit_hex by assumption.
    clear Hs. induction Hb as [|c r Hc _ IH]; [reflexivity|].
    cbn [map concat]. rewrite length_app, IH. unfold unit_hex.
    replace (c <? 256) with true by (symmetry; apply N.ltb_lt; lia).
    simpl. lia.
  - intros c Hin Hc.
    assert (c < 65536) by (rewrite Forall_forall in Hs; auto).
    split.
    + unfold unit_hex.
      replace (c <? 256) with false by (symmetry; apply N.ltb_ge; lia).
      destruct (c <? 4096); simpl; lia.
    + rewrite asciiToHex_unit_hex by (constructor; auto).
      simpl. apply app_nil_r.
Qed.

Lemma asciiToHex_writes_units_in_full_witness :
  Forall (fun c => c < 65536) [77; 256]
  /\ asciiToHex [77; 256] = concat (map unit_hex [77; 256])
  /\ asciiToHex [256] = unit_hex 256.
Proof.
  assert (H : Forall (fun c => c < 65536) [77; 256])
    by (repeat constructor; lia).
  destruct (asciiToHex_writes_units_in_full [77; 256] H) as (H1 & _ & H3).
  split; [exact H|]. split; [exact H1|].
  apply (H3 256); [right; left | lia].
Defined.

(** C6: a code unit above 0xFF does not get two digits.  U+0100 gives the
    three digits [100], where the comment of asciiToHex promises two
    digits per byte, truncation would give [00] and rejection nothing.
    The pairs of what follows are shifted: of U+0100 and [A] the bytes
    0x10 and 0x04 are decoded, and [A] is lost. *)
Theorem asciiToHex_above_FF :
  asciiToHex [256] = lit "100"
  /\ length (asciiToHex [256]) <> (2 * length [256 : N])%nat
  /\ asciiToHex [256; 65] = lit "10041"
  /\ Buffer_from_hex (asciiToHex [256; 65]) = [16; 4].
Proof.
  split; [vm_compute; reflexivity|]. split; [vm_compute; lia|].
  split; vm_compute; reflexivity.
Qed.

(** The helper of the mobile client pads nothing and keeps lowercase. *)
Lemma convertToHex_newline_J : convertToHex (lit "J") = lit "4a"
  /\ convertToHex [10] = lit "a".
Proof. split; vm_compute; reflexivity. Qed.

(** ** Decoding hex *)

(** A text made of pairs of hex digit characters. *)
Inductive hex_text : jsstring -> Prop :=
  | hex_text_nil : hex_text []
  | hex_text_pair a b r :
      hex_char a -> hex_char b -> hex_text r -> hex_text (a :: b :: r).

Lemma unhex_hex_char c : is_Some (unhex c) <-> hex_char c.
Proof.
  unfold unhex, hex_char.
  destruct (48 <=? c) eqn:A1; destruct (c <=? 57) eqn:A2;
  destruct (65 <=? c) eqn:A3; destruct (c <=? 70) eqn:A4;
  destruct (97 <=? c) eqn:A5; destruct (c <=? 102) eqn:A6; simpl;
  rewrite ?N.leb_le, ?N.leb_gt in *;
  (split; [intros [x Hx]; try discriminate; lia | intros; eauto; lia]).
Qed.

Lemma unhex_lt c x : unhex c = Some x -> x < 16.
Proof.
  unfold unhex.
  destruct (48 <=? c) eqn:A1; destruct (c <=? 57) eqn:A2;
  destruct (65 <=? c) eqn:A3; destruct (c <=? 70) eqn:A4;
  destruct (97 <=? c) eqn:A5; destruct (c <=? 102) eqn:A6; simpl;
  rewrite ?N.leb_le, ?N.leb_gt in *; intros [= <-]; lia.
Qed.

Lemma unhex_HEX d : d < 16 -> unhex (HEX d) = Some d.
Proof.
  intros Hd. unfold HEX, unhex.
  destruct (d <? 10) eqn:E; [apply N.ltb_lt in E | apply N.ltb_ge in E].
  - replace (48 <=? 48 + d) with true by (symmetry; apply N.leb_le; lia).
    replace (48 + d <=? 57) with true by (symmetry; apply N.leb_le; lia).
    simpl. f_equal. lia.
  - replace (55 + d <=? 57) with false by (symmetry; apply N.leb_gt; lia).
    replace (65 <=? 55 + d) with true by (symmetry; apply N.leb_le; lia).
    replace (55 + d <=? 70) with true by (symmetry; apply N.leb_le; lia).
    rewrite andb_false_r. simpl. f_equal. lia.
Qed.

Lemma mod2_SS n : (S (S n) mod 2 = n mod 2)%nat.
Proof.
  replace (S (S n)) with (n + 1 * 2)%nat by lia. apply Nat.Div0.mod_add.
Qed.

Lemma hex_text_forall s :
  hex_text s <-> Forall hex_char s /\ (length s mod 2 = 0)%nat.
Proof.
  split.
  - induction 1 as [|a b r Ha Hb _ [IH1 IH2]];
      [split; [constructor|reflexivity]|].
    split; [constructor; [assumption | constructor; assumption]|].
    cbn [length]. rewrite mod2_SS. exact IH2.
  - intros [Hf He]. remember (length s) as n eqn:Hn.
    revert s Hn Hf He. induction (lt_wf n) as [n _ IH]. intros s Hn Hf He.
    destruct s as [|a [|b r]].
    + constructor.
    + simpl in Hn. subst n. discriminate He.
    + inversion Hf as [|? ? Ha Hf1]; subst.
      inversion Hf1 as [|? ? Hb Hr]; subst.
      constructor; try assumption.
      cbn [length] in He. rewrite mod2_SS in He.
      apply (IH (length r)); simpl; try lia; assumption.
Qed.

Lemma Buffer_from_hex_app a b :
  hex_text a ->
  Buffer_from_hex (a ++ b) = Buffer_from_hex a ++ Buffer_from_hex b.
Proof.
  induction 1 as [|x y r Hx Hy _ IH]; [reflexivity|].
  apply unhex_hex_char in Hx as [hx Ex]. apply unhex_hex_char in Hy as [hy Ey].
  cbn [app Buffer_from_hex]. rewrite Ex, Ey, IH. reflexivity.
Qed.

Lemma Buffer_from_hex_length s :
  hex_text s -> length s = (2 * length (Buffer_from_hex s))%nat.
Proof.
  induction 1 as [|x y r Hx Hy _ IH]; [reflexivity|].
  apply unhex_hex_char in Hx as [hx Ex]. apply unhex_hex_char in Hy as [hy Ey].
  cbn [Buffer_from_hex]. rewrite Ex, Ey. simpl. lia.
Qed.

(** Byte [i] of the decoded buffer is made of characters [2i] and [2i+1]. *)
Lemma Buffer_from_hex_lookup s :
  hex_text s ->
  forall i a b, s !! (2 * i)%nat = Some a -> s !! (2 * i + 1)%nat = Some b ->
  exists x y, unhex a = Some x /\ unhex b = Some y
              /\ Buffer_from_hex s !! i = Some (16 * x + y).
Proof.
  induction 1 as [|x y r Hx Hy _ IH]; intros i a b Ha Hb; [discriminate|].
  apply unhex_hex_char in Hx as [hx Ex]. apply unhex_hex_char in Hy as [hy Ey].
  cbn [Buffer_from_hex]. rewrite Ex, Ey.
  destruct i as [|i].
  - simpl in Ha, Hb. injection Ha as <-. injection Hb as <-. eauto.
  - replace (2 * S i)%nat with (S (S (2 * i))) in Ha by lia.
    replace (2 * S i + 1)%nat with (S (S (2 * i + 1))) in Hb by lia.
    simpl in Ha, Hb. apply (IH i a b Ha Hb).
Qed.

Lemma hex_text_app a b : hex_text a -> hex_text b -> hex_text (a ++ b).
Proof. induction 1; simpl; [auto | constructor; auto]. Qed.

Lemma HEX_hex_char d : d < 16 -> hex_char (HEX d).
Proof. intros. apply unhex_hex_char. rewrite unhex_HEX; eauto. Qed.

Lemma hex_text_asciiToHex s :
  Forall (fun c => c <= 255) s -> hex_text (asciiToHex s).
Proof.
  induction 1 as [|c r Hc Hr IH]; [constructor|].
  rewrite asciiToHex_cons, unit_hex_correct by lia.
  unfold unit_hex.
  replace (c <? 256) with true by (symmetry; apply N.ltb_lt; lia).
  div_mod_16 c.
  constructor; [apply HEX_hex_char; lia | apply HEX_hex_char; lia | exact IH].
Qed.

(** Decoding the text of asciiToHex gives back a string of bytes. *)
Lemma Buffer_from_hex_asciiToHex s :
  Forall (fun c => c <= 255) s -> Buffer_from_hex (asciiToHex s) = s.
Proof.
  induction 1 as [|c r Hc Hr IH]; [reflexivity|].
  rewrite asciiToHex_cons, unit_hex_correct by lia.
  unfold unit_hex.
  replace (c <? 256) with true by (symmetry; apply N.ltb_lt; lia).
  div_mod_16 c.
  cbn [app Buffer_from_hex]. rewrite !unhex_HEX by lia. rewrite IH.
  f_equal. lia.
Qed.

(** ** The write commands *)

Lemma serialOpen_false w : serialOpen w = false <-> open_port w = None.
Proof.
  unfold serialOpen. destruct (open_port w); simpl; split; intros H;
    try reflexivity; try discriminate.
Qed.

Lemma serialOpen_true w :
  serialOpen w = true <-> exists id, open_port w = Some id.
Proof.
  unfold serialOpen. destruct (open_port w) as [id|]; simpl; split.
  - eauto.
  - reflexivity.
  - discriminate.
  - intros [id H]. discriminate.
Qed.

Lemma isHex_spec o : isHex o = true <-> exists s, hex_string o s.
Proof.
  unfold hex_string. split.
  - destruct o as [[| | |s| |]|]; try discriminate. simpl.
    intros H. apply andb_true_iff in H as [H H3].
    apply andb_true_iff in H as [H1 H2].
    exists s. split; [reflexivity|]. split; [|split].
    + apply negb_true_iff, bool_decide_eq_false in H1. exact H1.
    + pose proof (proj1 (forallb_forall _ _) H2) as H2'.
      apply Forall_forall. intros c Hc.
      apply unhex_hex_char. apply list_elem_of_In in Hc.
      specialize (H2' c Hc). apply bool_decide_eq_true in H2'. exact H2'.
    + apply Nat.eqb_eq. exact H3.
  - intros (s & -> & Hne & Hf & He). simpl.
    apply andb_true_iff. split; [apply andb_true_iff; split|].
    + apply negb_true_iff, bool_decide_eq_false. exact Hne.
    + apply (proj2 (forallb_forall _ _)). intros c Hc.
      apply bool_decide_eq_true.
      apply unhex_hex_char. rewrite Forall_forall in Hf.
      apply Hf, list_elem_of_In, Hc.
    + apply Nat.eqb_eq. exact He.
Qed.

Lemma half_length (s : jsstring) b :
  length s = (2 * b)%nat -> (length s / 2 = b)%nat.
Proof. intros ->. rewrite Nat.mul_comm. apply Nat.div_mul. lia. Qed.

(** C1: on a closed link each write command with a valid payload answers
    NotOpen and leaves the whole state, so the list of writes, as it was. *)
Theorem closed_link_refuses_writes
  (decode : Json -> option Buffer) (w : World) (io : WriteResult) :
  serialOpen w = false ->
  (forall body, isHex (prop body "hex") = true ->
     post_write_hex body io w = (w, NotOpen))
  /\ (forall body b64, prop body "b64" = Some b64 -> truthy b64 = true ->
     post_write_base64 decode body io w = (w, NotOpen))
  /\ (forall buf, post_write_binary (BodyBuffer buf) io w = (w, NotOpen))
  /\ (forall req, has_body req = true -> octet_stream req = true ->
     N.of_nat (length (payload req)) <= limit_2mb ->
     route_write_binary req io w = (w, NotOpen)).
Proof.
  intros Hc. apply serialOpen_false in Hc. repeat split.
  - intros body Hh. unfold post_write_hex. rewrite Hh, Hc. reflexivity.
  - intros body b64 Hb Ht. unfold post_write_base64. rewrite Hb, Ht, Hc.
    reflexivity.
  - intros buf. unfold post_write_binary. rewrite Hc. reflexivity.
  - intros req Hb Ho Hl. unfold route_write_binary, express_raw.
    rewrite Hb, Ho. simpl.
    replace (limit_2mb <? N.of_nat (length (payload req))) with false
      by (symmetry; apply N.ltb_ge; exact Hl).
    unfold post_write_binary. rewrite Hc. reflexivity.
Qed.

Lemma closed_link_refuses_writes_witness :
  serialOpen initial = false
  /\ post_write_hex (Some (obj1 "hex" (JStr (lit "1B40")))) Flushed initial
     = (initial, NotOpen)
  /\ post_write_base64 (fun _ => Some [])
       (Some (obj1 "b64" (JStr (lit "SGVsbG8=")))) Flushed initial
     = (initial, NotOpen)
  /\ post_write_binary (BodyBuffer [27; 64]) Flushed initial
     = (initial, NotOpen).
Proof.
  assert (H : serialOpen initial = false) by reflexivity.
  destruct (closed_link_refuses_writes (fun _ => Some []) initial Flushed H)
    as (H1 & H2 & H3 & _).
  split; [exact H|]. split; [|split].
  - apply H1. vm_compute. reflexivity.
  - apply (H2 _ (JStr (lit "SGVsbG8="))); vm_compute; reflexivity.
  - apply H3.
Defined.

(** C5, as amended: write-hex takes a non-empty string of an even number of
    hex digits: on an open link it answers half the length of the string
    and hands [port.write] the decoded bytes (byte [i] from characters [2i]
    and [2i+1]), once; every other value, the empty string among them, is
    answered InvalidEncoding with nothing written. *)
Theorem write_hex_takes_hex_pairs
  (body : option Json) (io : WriteResult) (w : World) :
  (forall s id, hex_string (prop body "hex") s -> open_port w = Some id ->
     snd (post_write_hex body Flushed w) = Ok_bytes (length s / 2)
     /\ written (fst (post_write_hex body Flushed w))
        = written w ++ [(id, Buffer_from_hex s)]
     /\ length (Buffer_from_hex s) = (length s / 2)%nat
     /\ forall i a b,
          s !! (2 * i)%nat = Some a -> s !! (2 * i + 1)%nat = Some b ->
          exists x y, unhex a = Some x /\ unhex b = Some y
                      /\ Buffer_from_hex s !! i = Some (16 * x + y))
  /\ ((~ exists s, hex_string (prop body "hex") s) ->
      post_write_hex body io w = (w, InvalidEncoding)).
Proof.
  split.
  - intros s id Hs Ho.
    assert (Hh : isHex (prop body "hex") = true) by (apply isHex_spec; eauto).
    destruct Hs as (Hp & Hne & Hf & He).
    assert (Ht : hex_text s) by (apply hex_text_forall; auto).
    pose proof (Buffer_from_hex_length s Ht) as Hl.
    apply half_length in Hl as Hl2.
    assert (E : post_write_hex body Flushed w
                = ({| objects := objects w; port := port w;
                      opening := opening w; pending := pending w;
                      written := written w ++ [(id, Buffer_from_hex s)];
                      errors := errors w |}, Ok_bytes (length s / 2))).
    { unfold post_write_hex. rewrite Hh, Ho. cbn [negb]. rewrite Hp, Hl2.
      reflexivity. }
    rewrite E. split; [reflexivity|]. split; [reflexivity|]. split.
    + symmetry. exact Hl2.
    + apply Buffer_from_hex_lookup, Ht.
  - intros Hn. unfold post_write_hex.
    destruct (isHex (prop body "hex")) eqn:Hh; [|reflexivity].
    exfalso. apply Hn, isHex_spec, Hh.
Qed.

Lemma write_hex_takes_hex_pairs_witness :
  hex_string (prop (Some (obj1 "hex" (JStr (lit "1B40")))) "hex") (lit "1B40")
  /\ open_port opened0 = Some 0%nat
  /\ snd (post_write_hex (Some (obj1 "hex" (JStr (lit "1B40")))) Flushed
            opened0) = Ok_bytes 2
  /\ written (fst (post_write_hex (Some (obj1 "hex" (JStr (lit "1B40"))))
                     Flushed opened0)) = [(0%nat, [27; 64])].
Proof.
  assert (H : hex_string (prop (Some (obj1 "hex" (JStr (lit "1B40")))) "hex")
                (lit "1B40")).
  { assert (Ht : hex_text (lit "1B40")).
    { change (lit "1B40") with [49; 66; 52; 48].
      repeat (constructor; [unfold hex_char; lia | unfold hex_char; lia |]).
      constructor. }
    destruct (proj1 (hex_text_forall _) Ht) as [Hf He].
    split; [vm_compute; reflexivity|]. split; [discriminate|].
    split; assumption. }
  split; [exact H|]. split; [reflexivity|].
  destruct (write_hex_takes_hex_pairs
              (Some (obj1 "hex" (JStr (lit "1B40")))) Flushed opened0)
    as [Hok _].
  destruct (Hok (lit "1B40") 0%nat H eq_refl) as (H1 & H2 & _).
  split; [exact H1 | exact H2].
Defined.

(** C5 as stated fails on the empty string, which has an even length and
    no character that is not a hex digit: it is answered InvalidEncoding. *)
Lemma write_hex_refuses_empty_string :
  Forall hex_char [] /\ (length ([] : jsstring) mod 2 = 0)%nat
  /\ post_write_hex (Some (obj1 "hex" (JStr []))) Flushed opened0
     = (opened0, InvalidEncoding).
Proof. split; [constructor|]. split; vm_compute; reflexivity. Qed.

(** What write-binary does with a request: one that brings no Buffer is
    answered MissingPayload, one over 2 MiB PayloadTooLarge; a Buffer of
    any length up to the limit is written as it is and its length is
    answered. *)
Theorem write_binary_sends_payload_unchanged
  (req : BinaryRequest) (io : WriteResult) (w : World) :
  (has_body req && octet_stream req = false ->
     route_write_binary req io w = (w, MissingPayload))
  /\ (has_body req && octet_stream req = true ->
      limit_2mb < N.of_nat (length (payload req)) ->
      route_write_binary req io w = (w, PayloadTooLarge))
  /\ (has_body req && octet_stream req = true ->
      N.of_nat (length (payload req)) <= limit_2mb ->
      forall id, open_port w = Some id ->
      route_write_binary req Flushed w
      = write_and_drain id (payload req) Flushed
          (Ok_bytes (length (payload req))) w
      /\ written (fst (route_write_binary req Flushed w))
         = written w ++ [(id, payload req)]).
Proof.
  unfold route_write_binary, express_raw. split; [|split].
  - intros ->. destruct (parsed req); reflexivity.
  - intros -> Hl. apply N.ltb_lt in Hl. rewrite Hl. reflexivity.
  - intros -> Hl id Ho. apply N.ltb_ge in Hl. rewrite Hl.
    unfold post_write_binary. rewrite Ho. split; reflexivity.
Qed.

Lemma write_binary_sends_payload_unchanged_witness :
  has_body (binary0 [27; 64; 10]) && octet_stream (binary0 [27; 64; 10]) = true
  /\ N.of_nat (length (payload (binary0 [27; 64; 10]))) <= limit_2mb
  /\ open_port opened0 = Some 0%nat
  /\ route_write_binary (binary0 [27; 64; 10]) Flushed opened0
     = write_and_drain 0 [27; 64; 10] Flushed (Ok_bytes 3) opened0.
Proof.
  set (req := binary0 [27; 64; 10]).
  assert (H1 : has_body req && octet_stream req = true) by reflexivity.
  assert (H2 : N.of_nat (length (payload req)) <= limit_2mb)
    by (vm_compute; discriminate).
  assert (H3 : open_port opened0 = Some 0%nat) by reflexivity.
  split; [exact H1|]. split; [exact H2|]. split; [exact H3|].
  destruct (write_binary_sends_payload_unchanged req Flushed opened0)
    as (_ & _ & H).
  exact (proj1 (H H1 H2 0%nat H3)).
Defined.

(** C9: an empty payload is not refused.  The handler tests [!buf], and an
    empty Buffer is an object, hence truthy: on an open link it is written
    and answered with zero bytes, where the claim (and the handlers of
    write-hex and write-base64, for an empty string) answer a failure. *)
Theorem write_binary_takes_empty_payload :
  snd (route_write_binary (binary0 []) Flushed opened0) = Ok_bytes 0
  /\ snd (post_write_binary (BodyBuffer []) Flushed opened0) = Ok_bytes 0
  /\ written (fst (route_write_binary (binary0 []) Flushed opened0))
     = written opened0 ++ [(0%nat, [])].
Proof. repeat split; vm_compute; reflexivity. Qed.

(** ** Opening the link *)

Lemma tryOpen_begin_busy cfg p w :
  opening w = true \/ serialOpen w = true ->
  tryOpen_begin cfg p w = (w, None).
Proof.
  intros H. unfold tryOpen_begin.
  replace (opening w || serialOpen w) with true; [reflexivity|].
  symmetry. apply orb_true_iff. exact H.
Qed.

Lemma tryOpen_begin_idle cfg p w :
  opening w = false -> serialOpen w = false ->
  tryOpen_begin cfg p w
  = ({| objects := objects w ++
                   [{| path := p; baudRate := BAUD cfg; isOpen := false |}];
        port := Some (length (objects w)); opening := true;
        pending := Some (length (objects w));
        written := written w; errors := errors w |},
     Some (length (objects w))).
Proof. intros Ho Hs. unfold tryOpen_begin. rewrite Ho, Hs. reflexivity. Qed.

Lemma open_port_closed_object w id p :
  port w = Some id -> objects w !! id = Some p -> isOpen p = false ->
  open_port w = None.
Proof. intros Hp Ho Hc. unfold open_port. rewrite Hp, Ho, Hc. reflexivity. Qed.

(** C2: a failed acquisition is not surfaced.  tryOpen catches the error
    of [port.open], logs it and returns, so the [catch] of the handler,
    which would answer 500 with the cause, is never entered: the caller
    gets the success reply with [opened] false, and the cause is in the
    error log only. *)
Theorem failed_open_is_not_a_failure :
  snd (post_open cfg0 None (OpenFailed (lit "Error: Permission denied"))
         initial)
  = Ok_open false (JStr (lit "/dev/ttyUSB0")) (Some 9600%Z)
  /\ is_success
       (snd (post_open cfg0 None (OpenFailed (lit "Error: Permission denied"))
               initial)) = true
  /\ errors (fst (post_open cfg0 None
                    (OpenFailed (lit "Error: Permission denied")) initial))
     = [lit "Error: Permission denied"]
  /\ port (fst (post_open cfg0 None
                  (OpenFailed (lit "Error: Permission denied")) initial))
     = None.
Proof. repeat split; vm_compute; reflexivity. Qed.

(** tryOpen constructs the port at the path it is given and at the
    configured baud rate, whatever the request said. *)
Lemma tryOpen_begin_object cfg p w w' id :
  tryOpen_begin cfg p w = (w', Some id) ->
  objects w' !! id
  = Some {| path := p; baudRate := BAUD cfg; isOpen := false |}.
Proof.
  unfold tryOpen_begin. destruct (opening w || serialOpen w); [discriminate|].
  intros [= <- <-]. cbn. rewrite lookup_app_r by lia.
  rewrite Nat.sub_diag. reflexivity.
Qed.

(** C3: the handler answers with the baud rate of the request while the
    handle was acquired at the configured one.  Here the request asks for
    [/dev/ttyS5] at 115200 and the configuration says 9600. *)
Theorem open_acquires_at_configured_baud :
  post_open cfg0
    (Some (JObj (<[lit "path" := JStr (lit "/dev/ttyS5")]>
                 {[ lit "baud" := JNum (lit "115200") ]})))
    Opened initial
  = ({| objects := [{| path := JStr (lit "/dev/ttyS5"); baudRate := 9600;
                       isOpen := true |}];
        port := Some 0%nat; opening := false; pending := None;
        written := []; errors := [] |},
     Ok_open true (JStr (lit "/dev/ttyS5")) (Some 115200%Z)).
Proof. vm_compute. reflexivity. Qed.

(** ** One handle at a time *)

Lemma open_port_Some w id :
  open_port w = Some id <->
  port w = Some id /\ exists p, objects w !! id = Some p /\ isOpen p = true.
Proof.
  unfold open_port. split.
  - destruct (port w) as [j|]; [|discriminate].
    destruct (objects w !! j) as [p|] eqn:E; [|discriminate].
    destruct (isOpen p) eqn:Ep; [|discriminate].
    intros [= ->]. eauto.
  - intros (-> & p & -> & ->). reflexivity.
Qed.

(** The write handlers change nothing but the list of writes. *)
Definition same_link (w w' : World) : Prop :=
  objects w' = objects w /\ port w' = port w /\ opening w' = opening w
  /\ pending w' = pending w.

Lemma same_link_refl w : same_link w w.
Proof. repeat split. Qed.

Lemma same_link_write id buf io ok w :
  same_link w (fst (write_and_drain id buf io ok w)).
Proof. repeat split. Qed.

Lemma same_link_open_port w w' : same_link w w' -> open_port w' = open_port w.
Proof. intros (Ho & Hp & _). unfold open_port. rewrite Ho, Hp. reflexivity. Qed.

Create HintDb link.
#[local] Hint Resolve same_link_refl same_link_write : link.

Lemma same_link_write_hex body io w :
  same_link w (fst (post_write_hex body io w)).
Proof.
  unfold post_write_hex. destruct (negb _); [auto with link|].
  destruct (open_port w); auto with link.
Qed.

Lemma same_link_write_base64 decode body io w :
  same_link w (fst (post_write_base64 decode body io w)).
Proof.
  unfold post_write_base64.
  destruct (prop body "b64") as [v|]; [|auto with link].
  destruct (truthy v); [|auto with link].
  destruct (open_port w); [|auto with link].
  destruct (decode v); auto with link.
Qed.

Lemma same_link_write_binary req io w :
  same_link w (fst (route_write_binary req io w)).
Proof.
  unfold route_write_binary.
  destruct (express_raw req) as [b|e]; [|auto with link].
  unfold post_write_binary. destruct b; auto with link.
  destruct (open_port w); auto with link.
Qed.

Lemma same_link_print_voucher now body io w :
  same_link w (fst (post_print_voucher now body io w)).
Proof.
  unfold post_print_voucher. destruct (open_port w); [|auto with link].
  destruct (voucher_hex now body); auto with link.
Qed.

(** The guard of tryOpen: while the flag is set or the link reads open,
    tryOpen returns at once and a poll tick does nothing, so no port is
    constructed and the state stays as it was. *)
Lemma tryOpen_guard cfg w :
  opening w = true \/ serialOpen w = true ->
  (forall p, tryOpen_begin cfg p w = (w, None))
  /\ (forall body r, fst (post_open cfg body r w) = w)
  /\ (forall list, pollForPort cfg list w = (w, None)).
Proof.
  intros Hb. split; [|split].
  - intros p. apply tryOpen_begin_busy, Hb.
  - intros body r. unfold post_open, tryOpen.
    destruct (open_args cfg body) as [[p b]|]; [|reflexivity].
    rewrite (tryOpen_begin_busy cfg p w Hb). reflexivity.
  - intros list. unfold pollForPort.
    destruct (AUTO_OPEN cfg); [|reflexivity].
    destruct (_ && _); [|reflexivity]. apply tryOpen_begin_busy, Hb.
Qed.

(** After [port.close] is called the link reads closed although [port]
    still refers to the object and the handle is not released. *)
Lemma open_port_post_close_begin w :
  open_port (fst (post_close_begin w)) = None.
Proof.
  unfold post_close_begin. destruct (open_port w) as [id|] eqn:Ho; [|exact Ho].
  apply open_port_Some in Ho as (Hp & p & Hl & _).
  unfold open_port. cbn [fst begin_close port objects]. rewrite Hp.
  rewrite list_lookup_alter_eq, Hl. reflexivity.
Qed.

(** Closing an object does not make the link read open. *)
Lemma open_port_begin_close id w :
  open_port w = None -> open_port (begin_close id w) = None.
Proof.
  unfold open_port. cbn [begin_close port objects].
  destruct (port w) as [j|]; [|reflexivity].
  destruct (decide (j = id)) as [->|Hne].
  - rewrite list_lookup_alter_eq. destruct (objects w !! id); reflexivity.
  - rewrite list_lookup_alter_ne by congruence. auto.
Qed.

(** While an [open] is awaited the link does not read open: [port] was set
    to the awaited object, or to null since. *)
Lemma opening_not_open_run cfg decode e w :
  (opening w = true -> open_port w = None) ->
  opening (run cfg decode e w) = true -> open_port (run cfg decode e w) = None.
Proof.
  intros IH.
  assert (Hb : forall p, opening (fst (tryOpen_begin cfg p w)) = true ->
                         open_port (fst (tryOpen_begin cfg p w)) = None).
  { intros p. unfold tryOpen_begin. destruct (_ || _); [exact IH|].
    intros _. unfold open_port. cbn [fst port objects].
    rewrite lookup_app_r by lia. rewrite Nat.sub_diag. reflexivity. }
  assert (Hs : forall w', same_link w w' ->
                          opening w' = true -> open_port w' = None).
  { intros w' Hw Ho. rewrite (same_link_open_port w w' Hw).
    apply IH. destruct Hw as (_ & _ & <- & _). exact Ho. }
  destruct e; cbn [run].
  - destruct (open_args cfg body) as [[p b]|]; [apply Hb | exact IH].
  - unfold pollForPort. destruct (AUTO_OPEN cfg); [|exact IH].
    destruct (_ && _); [apply Hb | exact IH].
  - destruct r; discriminate.
  - intros _. apply open_port_post_close_begin.
  - reflexivity.
  - intros Ho. apply open_port_begin_close, IH, Ho.
  - apply Hs, same_link_write_hex.
  - apply Hs, same_link_write_base64.
  - apply Hs, same_link_write_binary.
  - apply Hs, same_link_print_voucher.
Qed.

Lemma opening_not_open cfg decode l :
  reachable cfg decode l ->
  opening (world l) = true -> serialOpen (world l) = false.
Proof.
  intros Hr Ho. apply serialOpen_false. revert Ho.
  induction Hr as [|l e _ IH He]; [discriminate|].
  apply opening_not_open_run, IH.
Qed.

(** C4: the guard of tryOpen does not keep the handles to one.  It tests
    [port.isOpen], which is false from the call of [port.close] on, while
    [/close] sets [port = null] only after the callback; and the ['close']
    listener sets [port = null] whichever object [port] then is.  An
    [/open] that arrives between the two passes the guard and opens a
    second device; when the first handle is released [port] is null while
    that device is open, [/health] answers closed, and the next [/open]
    passes the guard again: two handles are open at once. *)
Theorem close_race_opens_two_handles (decode : Json -> option Buffer) :
  let leak := steps cfg0 decode (take 6 close_race) start in
  let l := steps cfg0 decode close_race start in
  reachable cfg0 decode l
  /\ port (world leak) = None
  /\ get_health cfg0 (world leak) = Ok_health (lit "/dev/ttyUSB0") false
  /\ open_handles (world leak)
     = [{| path := JStr (lit "/dev/ttyS5"); baudRate := 9600;
           isOpen := true |}]
  /\ open_handles (world l)
     = [{| path := JStr (lit "/dev/ttyS5"); baudRate := 9600;
           isOpen := true |};
        {| path := JStr (lit "/dev/ttyUSB0"); baudRate := 9600;
           isOpen := true |}]
  /\ port (world l) = Some 2%nat
  /\ closing l = [].
Proof.
  cbv zeta. split.
  - unfold steps, close_race. cbn [fold_left].
    repeat (apply reachable_step;
            [| first [ exact I
                     | vm_compute; reflexivity
                     | vm_compute; apply list_elem_of_here ]]).
    apply reachable_start.
  - repeat split; vm_compute; reflexivity.
Qed.

(** ** print-voucher *)

Lemma voucher_hex_defaults now body :
  body = None \/ body = Some (JObj ∅) \/ body = empty_records ->
  voucher_hex now body = Some (default_hex now).
Proof. intros [-> | [-> | ->]]; vm_compute; reflexivity. Qed.

Lemma fullHex_default_head now :
  fullHex (default_hex now)
  = default_head ++ drop (length default_head) (fullHex (default_hex now)).
Proof.
  rewrite <- (take_drop (length default_head) (fullHex (default_hex now)))
    at 1.
  replace (take (length default_head) (fullHex (default_hex now)))
    with default_head by (vm_compute; reflexivity).
  reflexivity.
Qed.

Lemma hex_text_default_head : hex_text default_head.
Proof.
  apply hex_text_forall.
  assert (H : isHex (Some (JStr default_head)) = true)
    by (vm_compute; reflexivity).
  apply isHex_spec in H as (s & [= <-] & _ & Hf & He). split; assumption.
Qed.

Lemma occurs_in_app_l {A} (x l r : list A) :
  occurs_in x l -> occurs_in x (l ++ r).
Proof.
  intros (pre & post & ->). exists pre, (post ++ r).
  rewrite <- !app_assoc. reflexivity.
Qed.

(** C7, as amended: a request that supplies no field, on an open link, is
    printed from the defaults: the reply counts the bytes, and the buffer
    handed to [port.write] is not empty and holds [My Station] and
    [VC123456] as the bytes their uppercase hex texts decode to.  The reply
    says [usedDefaults] when the body is absent or [{}]; when the body
    names empty station and voucher records the same receipt is printed
    and [usedDefaults] is false. *)
Theorem default_voucher_is_printed
  (now : Clock) (body : option Json) (w : World) (id : nat) :
  body = None \/ body = Some (JObj ∅) \/ body = empty_records ->
  open_port w = Some id ->
  let f := default_hex now in
  let buf := Buffer_from_hex (fullHex f) in
  voucher_hex now body = Some f
  /\ (body = None \/ body = Some (JObj ∅) ->
      snd (post_print_voucher now body Flushed w)
      = Ok_voucher (length buf) true)
  /\ (body = empty_records ->
      snd (post_print_voucher now body Flushed w)
      = Ok_voucher (length buf) false)
  /\ written (fst (post_print_voucher now body Flushed w))
     = written w ++ [(id, buf)]
  /\ buf <> []
  /\ stationName f = lit "4D792053746174696F6E"
  /\ voconoHex f = lit "5643313233343536"
  /\ occurs_in (Buffer_from_hex (stationName f)) buf
  /\ occurs_in (Buffer_from_hex (voconoHex f)) buf
  /\ Buffer_from_hex (stationName f) = lit "My Station"
  /\ Buffer_from_hex (voconoHex f) = lit "VC123456".
Proof.
  intros Hb Ho. cbv zeta. pose proof (voucher_hex_defaults now body Hb) as Hv.
  assert (E : post_print_voucher now body Flushed w
              = ({| objects := objects w; port := port w;
                    opening := opening w; pending := pending w;
                    written := written w ++
                      [(id, Buffer_from_hex (fullHex (default_hex now)))];
                    errors := errors w |},
                 Ok_voucher
                   (length (Buffer_from_hex (fullHex (default_hex now))))
                   (usedDefaults_of body))).
  { unfold post_print_voucher. rewrite Ho, Hv. reflexivity. }
  split; [exact Hv|]. rewrite E. cbn [fst snd written].
  split; [intros [-> | ->]; reflexivity|].
  split; [intros ->; reflexivity|].
  split; [reflexivity|].
  rewrite fullHex_default_head.
  rewrite (Buffer_from_hex_app _ _ hex_text_default_head).
  set (rest := Buffer_from_hex (drop _ _)).
  split; [vm_compute; discriminate|].
  split; [vm_compute; reflexivity|]. split; [vm_compute; reflexivity|].
  split; [|split; [|split; vm_compute; reflexivity]].
  - apply occurs_in_app_l.
    exists (take 5 (Buffer_from_hex default_head)),
           (drop 15 (Buffer_from_hex default_head)).
    vm_compute. reflexivity.
  - apply occurs_in_app_l.
    exists (take 108 (Buffer_from_hex default_head)),
           (drop 116 (Buffer_from_hex default_head)).
    vm_compute. reflexivity.
Qed.

Lemma default_voucher_is_printed_witness :
  open_port opened0 = Some 0%nat
  /\ snd (post_print_voucher now0 None Flushed opened0)
     = Ok_voucher (length (Buffer_from_hex (fullHex (default_hex now0)))) true
  /\ written (fst (post_print_voucher now0 None Flushed opened0))
     = [(0%nat, Buffer_from_hex (fullHex (default_hex now0)))]
  /\ occurs_in (lit "My Station")
       (Buffer_from_hex (fullHex (default_hex now0)))
  /\ occurs_in (lit "VC123456")
       (Buffer_from_hex (fullHex (default_hex now0))).
Proof.
  split; [reflexivity|].
  destruct (default_voucher_is_printed now0 None opened0 0
              (or_introl eq_refl) eq_refl)
    as (_ & H1 & _ & H2 & _ & _ & _ & H3 & H4 & _).
  split; [exact (H1 (or_introl eq_refl))|]. split; [exact H2|].
  split; [exact H3 | exact H4].
Defined.

(** C7 as stated fails when the empty station and voucher records are
    supplied: the receipt is the one of the defaults, yet [usedDefaults]
    is false. *)
Lemma empty_records_are_not_defaults :
  voucher_hex now0 empty_records = Some (default_hex now0)
  /\ snd (post_print_voucher now0 empty_records Flushed opened0)
     = Ok_voucher (length (Buffer_from_hex (fullHex (default_hex now0))))
         false.
Proof. split; vm_compute; reflexivity. Qed.

Lemma slice_length b e (s : jsstring) :
  length (slice b e s) = (Nat.min e (Nat.max b (length s)) - b)%nat.
Proof. unfold slice. rewrite length_take, length_drop. lia. Qed.

Lemma voucher_hex_time now body f :
  voucher_hex now body = Some f ->
  exists t, String_of (voucher_of now body !! lit "createAt") = Some t
            /\ timeHex f = asciiToHex (slice 11 19 t).
Proof.
  unfold voucher_hex. intros H.
  repeat match type of H with
         | (mbind _ ?o) = Some _ =>
             let E := fresh "E" in
             destruct o eqn:E; cbn [mbind option_bind] in H; [|discriminate]
         end.
  injection H as <-. cbn [timeHex]. eauto.
Qed.

(** Converting a value that is not an object to a string does not throw. *)
Lemma plain_lookup m k v :
  plain m = true -> m !! k = Some v -> primitive v = true.
Proof.
  unfold plain. intros H Hl.
  apply (proj1 (forallb_forall _ _) H (k, v)).
  apply list_elem_of_In, elem_of_map_to_list, Hl.
Qed.

Lemma js_String_primitive v :
  primitive v = true -> exists s, js_String v = Some s.
Proof. destruct v as [|[]| | | |]; try discriminate; simpl; eauto. Qed.

Lemma String_of_plain m k :
  plain m = true -> exists s, String_of (m !! k) = Some s.
Proof.
  intros H. destruct (m !! k) as [v|] eqn:E; simpl; [|eauto].
  apply js_String_primitive, (plain_lookup m k v H E).
Qed.

Lemma asciiToHex_of_plain m k :
  plain m = true -> exists s, asciiToHex_of (m !! k) = Some s.
Proof.
  intros H. destruct (m !! k) as [v|] eqn:E; simpl; [|eauto].
  destruct (js_String_primitive v (plain_lookup m k v H E)) as [s Hs].
  destruct v; simpl in *; try rewrite Hs; simpl; eauto.
Qed.

(** A request whose station and voucher hold no object is never refused
    for a field. *)
Lemma voucher_hex_plain now body :
  plain (station_of body) = true -> plain (voucher_of now body) = true ->
  exists f, voucher_hex now body = Some f.
Proof.
  intros Hs Hv. unfold voucher_hex. cbv zeta.
  repeat match goal with
         | |- context [asciiToHex_of (?m !! ?k)] =>
             let E := fresh "E" in
             destruct (asciiToHex_of_plain m k ltac:(assumption)) as [? E];
             rewrite E; cbn [mbind option_bind]
         | |- context [String_of (?m !! ?k)] =>
             let E := fresh "E" in
             destruct (String_of_plain m k ltac:(assumption)) as [? E];
             rewrite E; cbn [mbind option_bind]
         end.
  eauto.
Qed.

(** C8, as amended: the time is the slice of characters 11 to 19 of the
    text of [createAt], whatever its length; a text shorter than 19
    characters gives fewer than 8 (none below 12).  No length is checked:
    whenever the station and the voucher hold no object, the voucher is
    printed, with that time on its TIME line. *)
Theorem time_is_a_plain_slice
  (now : Clock) (body : option Json) (w : World) (id : nat) :
  plain (station_of body) = true -> plain (voucher_of now body) = true ->
  open_port w = Some id ->
  exists t f,
    String_of (voucher_of now body !! lit "createAt") = Some t
    /\ voucher_hex now body = Some f
    /\ timeHex f = asciiToHex (slice 11 19 t)
    /\ length (slice 11 19 t) = (Nat.min 19 (Nat.max 11 (length t)) - 11)%nat
    /\ ((length t < 19)%nat -> (length (slice 11 19 t) < 8)%nat)
    /\ ((length t < 12)%nat -> slice 11 19 t = [])
    /\ In (lit "54494D452020202020" ++ asciiToHex (slice 11 19 t) ++ lit "0A")
          (hexChunks f)
    /\ snd (post_print_voucher now body Flushed w)
       = Ok_voucher (length (Buffer_from_hex (fullHex f)))
           (usedDefaults_of body)
    /\ written (fst (post_print_voucher now body Flushed w))
       = written w ++ [(id, Buffer_from_hex (fullHex f))].
Proof.
  intros Hs Hv Ho.
  destruct (voucher_hex_plain now body Hs Hv) as [f Hf].
  destruct (voucher_hex_time now body f Hf) as (t & Ht & Htime).
  exists t, f.
  assert (E : post_print_voucher now body Flushed w
              = ({| objects := objects w; port := port w;
                    opening := opening w; pending := pending w;
                    written := written w ++
                      [(id, Buffer_from_hex (fullHex f))];
                    errors := errors w |},
                 Ok_voucher (length (Buffer_from_hex (fullHex f)))
                   (usedDefaults_of body))).
  { unfold post_print_voucher. rewrite Ho, Hf. reflexivity. }
  rewrite E. split; [exact Ht|]. split; [exact Hf|]. split; [exact Htime|].
  split; [apply slice_length|].
  split; [intros Hl; rewrite slice_length; lia|].
  split; [intros Hl; apply length_zero_iff_nil; rewrite slice_length; lia|].
  split; [|split; reflexivity].
  unfold hexChunks. rewrite Htime. do 7 right. left. reflexivity.
Qed.

Lemma time_is_a_plain_slice_witness :
  plain (station_of short_createAt) = true
  /\ plain (voucher_of now0 short_createAt) = true
  /\ open_port opened0 = Some 0%nat
  /\ exists t f,
       String_of (voucher_of now0 short_createAt !! lit "createAt") = Some t
       /\ t = lit "2025"
       /\ voucher_hex now0 short_createAt = Some f
       /\ timeHex f = []
       /\ snd (post_print_voucher now0 short_createAt Flushed opened0)
          = Ok_voucher (length (Buffer_from_hex (fullHex f))) false.
Proof.
  assert (H1 : plain (station_of short_createAt) = true)
    by (vm_compute; reflexivity).
  assert (H2 : plain (voucher_of now0 short_createAt) = true)
    by (vm_compute; reflexivity).
  split; [exact H1|]. split; [exact H2|]. split; [reflexivity|].
  destruct (time_is_a_plain_slice now0 short_createAt opened0 0 H1 H2 eq_refl)
    as (t & f & Ht & Hf & Htime & _ & _ & _ & _ & Hr & _).
  exists t, f.
  assert (Et : t = lit "2025").
  { assert (Hc : String_of (voucher_of now0 short_createAt !! lit "createAt")
                 = Some (lit "2025")) by (vm_compute; reflexivity).
    congruence. }
  split; [exact Ht|]. split; [exact Et|]. split; [exact Hf|].
  split; [rewrite Htime, Et; reflexivity | exact Hr].
Defined.

(** C8 as stated fails on a short timestamp: with [createAt] set to
    [2025] the time is empty and the voucher is printed, with no failure. *)
Lemma short_timestamp_is_printed :
  timeHex <$> voucher_hex now0 short_createAt = Some []
  /\ is_success (snd (post_print_voucher now0 short_createAt Flushed opened0))
     = true.
Proof. split; vm_compute; reflexivity. Qed.

Lemma usedDefaults_of_spec body :
  usedDefaults_of body = true
  <-> body = None \/ exists v, body = Some v /\ keys_length v = 0%nat.
Proof.
  unfold usedDefaults_of. destruct body as [v|]; [|tauto]. split.
  - intros H. right. exists v. split; [reflexivity|].
    apply orb_true_iff in H as [H|H]; [|apply Nat.eqb_eq, H].
    destruct v as [|[]|t|t| |]; try discriminate; try reflexivity.
    simpl in H. apply negb_true_iff, negb_false_iff, bool_decide_eq_true in H.
    subst t. reflexivity.
  - intros [[=]|(v' & [= <-] & Hk)]. rewrite Hk. apply orb_true_r.
Qed.

(** C10: in a successful reply [usedDefaults] is true exactly when the
    request has no body or a body without keys; an object with any key
    gives false, and so does [{ station: {} }] although the receipt is the
    one printed from the defaults. *)
Theorem usedDefaults_means_empty_body
  (now : Clock) (body : option Json) (io : WriteResult) (w w' : World)
  (n : nat) (ud : bool) :
  post_print_voucher now body io w = (w', Ok_voucher n ud) ->
  (ud = true
   <-> body = None \/ exists v, body = Some v /\ keys_length v = 0%nat)
  /\ (forall m, body = Some (JObj m) -> m <> ∅ -> ud = false)
  /\ (body = Some (obj1 "station" (JObj ∅)) ->
      ud = false
      /\ post_print_voucher now None io w = (w', Ok_voucher n true)).
Proof.
  intros H. unfold post_print_voucher in H.
  destruct (open_port w) as [id|] eqn:Ho; [|discriminate].
  destruct (voucher_hex now body) as [f|] eqn:Hf; [|discriminate].
  remember (Buffer_from_hex (fullHex f)) as buf eqn:Hbuf.
  unfold write_and_drain in H. destruct io; try discriminate.
  injection H as Hw Hn Hu. split; [|split].
  - rewrite <- Hu. apply usedDefaults_of_spec.
  - intros m -> Hm. rewrite <- Hu. cbn.
    apply Nat.eqb_neq. intros Hs. apply Hm, map_size_empty_iff, Hs.
  - intros ->. split; [rewrite <- Hu; vm_compute; reflexivity|].
    assert (Hd : voucher_hex now (Some (obj1 "station" (JObj ∅)))
                 = Some (default_hex now)) by (vm_compute; reflexivity).
    rewrite Hd in Hf. injection Hf as <-.
    unfold post_print_voucher. rewrite Ho.
    rewrite (voucher_hex_defaults now None (or_introl eq_refl)).
    rewrite <- Hbuf. unfold write_and_drain. cbn [usedDefaults_of].
    rewrite <- Hw, <- Hn. reflexivity.
Qed.

Lemma usedDefaults_means_empty_body_witness :
  post_print_voucher now0 (Some (obj1 "station" (JObj ∅))) Flushed opened0
  = (fst (post_print_voucher now0 None Flushed opened0),
     Ok_voucher (length (Buffer_from_hex (fullHex (default_hex now0)))) false)
  /\ post_print_voucher now0 None Flushed opened0
     = (fst (post_print_voucher now0 None Flushed opened0),
        Ok_voucher (length (Buffer_from_hex (fullHex (default_hex now0))))
          true).
Proof.
  assert (H : post_print_voucher now0 (Some (obj1 "station" (JObj ∅)))
                Flushed opened0
              = (fst (post_print_voucher now0 None Flushed opened0),
                 Ok_voucher
                   (length (Buffer_from_hex (fullHex (default_hex now0))))
                   false)) by (vm_compute; reflexivity).
  split; [exact H|].
  destruct (usedDefaults_means_empty_body _ _ _ _ _ _ _ H) as (_ & _ & H3).
  exact (proj2 (H3 eq_refl)).
Defined.

(** * Further properties of the bridge *)

(** ** Closing, health and the poll loop *)

(** X1: [/close] never fails and may be repeated.  From the call of
    [port.close] on the link reads closed, so a second [/close], during
    the await of the first or after it, finds nothing to close, answers
    [{ ok: true }] at once and leaves the state as it was; the release of
    the handle leaves [port] null.  Neither step touches the flag of an
    awaited [open] or writes to the device. *)
Theorem close_is_idempotent (w : World) :
  let w1 := fst (post_close_begin w) in
  (serialOpen w1 = false
   /\ post_close_begin w1 = (w1, None)
   /\ post_close w1 = (w1, Ok_plain)
   /\ port w1 = port w /\ opening w1 = opening w /\ pending w1 = pending w
   /\ written w1 = written w)
  /\ (forall id v,
        snd (post_close_end id v) = Ok_plain
        /\ port (fst (post_close_end id v)) = None
        /\ post_close (fst (post_close_end id v))
           = (fst (post_close_end id v), Ok_plain)
        /\ opening (fst (post_close_end id v)) = opening v
        /\ pending (fst (post_close_end id v)) = pending v
        /\ written (fst (post_close_end id v)) = written v)
  /\ snd (post_close w) = Ok_plain
  /\ post_close (fst (post_close w)) = (fst (post_close w), Ok_plain).
Proof.
  cbv zeta. pose proof (open_port_post_close_begin w) as Hc.
  assert (Hb : forall v, open_port v = None -> post_close v = (v, Ok_plain)).
  { intros v Hv. unfold post_close, post_close_begin. rewrite Hv.
    reflexivity. }
  split; [|split; [|split]].
  - split; [apply serialOpen_false, Hc|].
    split; [unfold post_close_begin at 1; rewrite Hc; reflexivity|].
    split; [apply Hb, Hc|].
    unfold post_close_begin. destruct (open_port w); repeat split.
  - intros id v. split; [reflexivity|]. split; [reflexivity|].
    split; [apply Hb; reflexivity|]. repeat split.
  - unfold post_close, post_close_begin. destruct (open_port w); reflexivity.
  - apply Hb. unfold post_close, post_close_begin.
    destruct (open_port w) eqn:Ho; [reflexivity | exact Ho].
Qed.

(** X2: [/health] answers the configured path, whichever path was opened,
    and [serialOpen] as [port] reads: in every state the bridge can reach
    it is false while an [open] is awaited, and when it is true [port]
    refers to an object that holds an open handle and no [open] is
    awaited.  Stated for a configured path of ASCII characters, as the
    poll tick is among the events. *)
Theorem health_is_false_while_opening
  (cfg : Config) (decode : Json -> option Buffer) (l : Loop) :
  is_ascii (SERIAL_PATH cfg) = true ->
  reachable cfg decode l ->
  (opening (world l) = true ->
     get_health cfg (world l) = Ok_health (SERIAL_PATH cfg) false)
  /\ (get_health cfg (world l) = Ok_health (SERIAL_PATH cfg) true ->
      opening (world l) = false
      /\ exists id p, port (world l) = Some id
           /\ objects (world l) !! id = Some p /\ isOpen p = true
           /\ p ∈ open_handles (world l)).
Proof.
  intros _ Hr. pose proof (opening_not_open cfg decode l Hr) as Hi.
  unfold get_health. split.
  - intros Ho. rewrite (Hi Ho). reflexivity.
  - intros [= Hs]. split.
    + destruct (opening (world l)); [|reflexivity].
      rewrite (Hi eq_refl) in Hs. discriminate.
    + apply serialOpen_true in Hs as [id Ho].
      apply open_port_Some in Ho as (Hp & p & Hl & Hop).
      exists id, p. split; [exact Hp|]. split; [exact Hl|].
      split; [exact Hop|]. unfold open_handles.
      apply list_elem_of_filter. split; [exact Hop|].
      apply list_elem_of_lookup. eauto.
Qed.

Lemma health_is_false_while_opening_witness :
  is_ascii (SERIAL_PATH cfg0) = true
  /\ reachable cfg0 (fun _ => None)
       (step cfg0 (fun _ => None) (EvOpen None) start)
  /\ opening (world (step cfg0 (fun _ => None) (EvOpen None) start)) = true
  /\ get_health cfg0 (world (step cfg0 (fun _ => None) (EvOpen None) start))
     = Ok_health (SERIAL_PATH cfg0) false.
Proof.
  assert (Hr : reachable cfg0 (fun _ => None)
                 (step cfg0 (fun _ => None) (EvOpen None) start))
    by (apply reachable_step; [apply reachable_start | exact I]).
  split; [reflexivity|]. split; [exact Hr|]. split; [reflexivity|].
  exact (proj1 (health_is_false_while_opening cfg0 _ _ eq_refl Hr) eq_refl).
Defined.

Lemma existsb_listed cfg (list : list jsstring) :
  existsb (fun p => bool_decide (p = SERIAL_PATH cfg)
                    || bool_decide (p = toLowerCase (SERIAL_PATH cfg))) list
  = true
  <-> SERIAL_PATH cfg ∈ list \/ toLowerCase (SERIAL_PATH cfg) ∈ list.
Proof.
  rewrite existsb_exists. split.
  - intros (x & Hin & Hx). apply list_elem_of_In in Hin.
    apply orb_true_iff in Hx as [Hx|Hx]; apply bool_decide_eq_true in Hx;
      subst x; auto.
  - intros [H|H]; apply list_elem_of_In in H; eexists; (split; [exact H|]);
      apply orb_true_iff; [left|right]; apply bool_decide_eq_true; reflexivity.
Qed.

(** X3: a poll tick constructs a port only when auto-open is on, the
    configured path (or its lowercase form) is listed, the link is closed
    and no [open] is awaited; the port is then made at the configured path
    itself and at the configured baud rate.  Stated for a configured path
    of ASCII characters. *)
Theorem poll_opens_only_the_configured_port
  (cfg : Config) (list : list jsstring) (w w' : World) (id : nat) :
  is_ascii (SERIAL_PATH cfg) = true ->
  pollForPort cfg list w = (w', Some id) ->
  AUTO_OPEN cfg = true
  /\ (SERIAL_PATH cfg ∈ list \/ toLowerCase (SERIAL_PATH cfg) ∈ list)
  /\ serialOpen w = false /\ opening w = false
  /\ objects w' = objects w ++
       [{| path := JStr (SERIAL_PATH cfg); baudRate := BAUD cfg;
           isOpen := false |}]
  /\ id = length (objects w) /\ opening w' = true.
Proof.
  intros _. unfold pollForPort. destruct (AUTO_OPEN cfg); [|discriminate].
  destruct (existsb _ list) eqn:Hf; [|discriminate].
  destruct (serialOpen w) eqn:Hs; [discriminate|]. cbn [negb andb].
  unfold tryOpen_begin. rewrite Hs.
  destruct (opening w) eqn:Ho; [discriminate|]. cbn [orb].
  intros [= <- <-]. apply existsb_listed in Hf. cbn. auto 10.
Qed.

Lemma poll_opens_only_the_configured_port_witness :
  is_ascii (SERIAL_PATH cfg0) = true
  /\ pollForPort cfg0 [lit "/dev/ttyS0"; lit "/dev/ttyusb0"] initial
     = (fst (pollForPort cfg0 [lit "/dev/ttyS0"; lit "/dev/ttyusb0"] initial),
        Some 0%nat)
  /\ objects (fst (pollForPort cfg0 [lit "/dev/ttyS0"; lit "/dev/ttyusb0"]
                     initial))
     = objects initial ++
       [{| path := JStr (SERIAL_PATH cfg0); baudRate := BAUD cfg0;
           isOpen := false |}].
Proof.
  assert (Ha : is_ascii (SERIAL_PATH cfg0) = true) by reflexivity.
  assert (H : pollForPort cfg0 [lit "/dev/ttyS0"; lit "/dev/ttyusb0"] initial
              = (fst (pollForPort cfg0 [lit "/dev/ttyS0"; lit "/dev/ttyusb0"]
                        initial), Some 0%nat)) by (vm_compute; reflexivity).
  split; [exact Ha|]. split; [exact H|].
  destruct (poll_opens_only_the_configured_port _ _ _ _ _ Ha H)
    as (_ & _ & _ & _ & H5 & _).
  exact H5.
Defined.

(** X4: when the device of the current port goes away the link reads
    closed at once, and when the handle is released the ['close'] listener
    sets [port] to null; if no [open] is awaited, the next poll tick that
    finds the configured path listed constructs a new port at the
    configured path and baud rate and starts opening it, and if one is
    awaited the tick does nothing.  Stated for a configured path of ASCII
    characters. *)
Theorem unplugged_port_is_reopened_by_poll
  (cfg : Config) (w : World) (id : nat) (list : list jsstring) :
  is_ascii (SERIAL_PATH cfg) = true ->
  AUTO_OPEN cfg = true -> SERIAL_PATH cfg ∈ list ->
  (port w = Some id -> serialOpen (begin_close id w) = false)
  /\ serialOpen (on_close id w) = false
  /\ port (on_close id w) = None
  /\ (opening w = true ->
      pollForPort cfg list (on_close id w) = (on_close id w, None))
  /\ (opening w = false ->
      exists w', pollForPort cfg list (on_close id w)
                 = (w', Some (length (objects w)))
                 /\ opening w' = true /\ port w' = Some (length (objects w))
                 /\ objects w' !! length (objects w)
                    = Some {| path := JStr (SERIAL_PATH cfg);
                              baudRate := BAUD cfg; isOpen := false |}
                 /\ written w' = written w).
Proof.
  intros _ Ha Hin.
  assert (Hs : serialOpen (on_close id w) = false) by reflexivity.
  split.
  { intros Hp. apply serialOpen_false. unfold open_port.
    cbn [begin_close port objects]. rewrite Hp, list_lookup_alter_eq.
    destruct (objects w !! id); reflexivity. }
  split; [exact Hs|]. split; [reflexivity|].
  unfold pollForPort. rewrite Ha.
  replace (existsb _ list) with true
    by (symmetry; apply existsb_listed; auto).
  rewrite Hs. cbn [negb andb]. split.
  - intros Ho. apply tryOpen_begin_busy. left. exact Ho.
  - intros Ho.
    rewrite (tryOpen_begin_idle cfg _ (on_close id w) Ho Hs).
    cbn [objects on_close]. rewrite length_alter.
    eexists. split; [reflexivity|]. cbn.
    split; [reflexivity|]. split; [reflexivity|]. split; [|reflexivity].
    rewrite lookup_app_r by (rewrite length_alter; lia).
    rewrite length_alter, Nat.sub_diag. reflexivity.
Qed.

Lemma unplugged_port_is_reopened_by_poll_witness :
  is_ascii (SERIAL_PATH cfg0) = true
  /\ AUTO_OPEN cfg0 = true /\ SERIAL_PATH cfg0 ∈ [lit "/dev/ttyUSB0"]
  /\ serialOpen opened0 = true
  /\ serialOpen (on_close 0 opened0) = false
  /\ exists w', pollForPort cfg0 [lit "/dev/ttyUSB0"] (on_close 0 opened0)
                = (w', Some 1%nat).
Proof.
  assert (Hin : SERIAL_PATH cfg0 ∈ [lit "/dev/ttyUSB0"]) by (left).
  destruct (unplugged_port_is_reopened_by_poll cfg0 opened0 0
              [lit "/dev/ttyUSB0"] eq_refl eq_refl Hin)
    as (_ & H1 & _ & _ & H4).
  split; [reflexivity|]. split; [reflexivity|]. split; [exact Hin|].
  split; [reflexivity|].
  split; [exact H1|].
  destruct (H4 eq_refl) as (w' & Hw & _). exists w'. exact Hw.
Defined.

(** ** Opening on request *)

(** X5: an [/open] on a link that reads closed, with no [open] awaited,
    constructs one port at the path of the request, or at the configured
    path when the request has none (or an empty or null one), always at
    the configured baud rate, sets the flag and awaits.  If [port] still
    refers to that object when the device accepts, the link is open on it,
    the flag is cleared and the reply says [opened] with the path and the
    baud asked for.  The baud is taken below 2^53, where [parseInt] is
    exact. *)
Theorem open_records_the_requested_path
  (cfg : Config) (body : option Json) (w : World) (p : Json) (b : option Z) :
  opening w = false -> serialOpen w = false ->
  open_args cfg body = Some (p, b) ->
  (forall z, b = Some z -> (Z.abs z < 2 ^ 53)%Z) ->
  let id := length (objects w) in
  tryOpen_begin cfg p w
  = ({| objects := objects w ++
                   [{| path := p; baudRate := BAUD cfg; isOpen := false |}];
        port := Some id; opening := true; pending := Some id;
        written := written w; errors := errors w |}, Some id)
  /\ p = match prop body "path" with
         | Some v => if truthy v then v else JStr (SERIAL_PATH cfg)
         | None => JStr (SERIAL_PATH cfg)
         end
  /\ (forall v obj, port v = Some id -> objects v !! id = Some obj ->
        open_port (tryOpen_end id Opened v) = Some id
        /\ objects (tryOpen_end id Opened v) !! id
           = Some (set_isOpen true obj)
        /\ opening (tryOpen_end id Opened v) = false
        /\ open_reply p b (tryOpen_end id Opened v) = Ok_open true p b).
Proof.
  intros Ho Hs Ha _. cbv zeta.
  split; [apply tryOpen_begin_idle; assumption|]. split.
  { unfold open_args in Ha.
    destruct (js_String _) in Ha; [|discriminate]. cbn in Ha.
    injection Ha as <- _. reflexivity. }
  intros v obj Hp Hl.
  assert (Hobj : objects (tryOpen_end (length (objects w)) Opened v)
                 !! length (objects w) = Some (set_isOpen true obj)).
  { cbn [tryOpen_end objects]. rewrite list_lookup_alter_eq, Hl.
    reflexivity. }
  assert (Hport : open_port (tryOpen_end (length (objects w)) Opened v)
                  = Some (length (objects w))).
  { apply open_port_Some. split; [exact Hp|]. eauto. }
  split; [exact Hport|]. split; [exact Hobj|]. split; [reflexivity|].
  unfold open_reply, serialOpen. rewrite Hport. reflexivity.
Qed.

Lemma open_records_the_requested_path_witness :
  opening initial = false /\ serialOpen initial = false
  /\ open_args cfg0 (Some (obj1 "path" (JStr (lit "COM7"))))
     = Some (JStr (lit "COM7"), Some 9600%Z)
  /\ open_reply (JStr (lit "COM7")) (Some 9600%Z)
       (tryOpen_end 0 Opened
          (fst (tryOpen_begin cfg0 (JStr (lit "COM7")) initial)))
     = Ok_open true (JStr (lit "COM7")) (Some 9600%Z).
Proof.
  assert (H : open_args cfg0 (Some (obj1 "path" (JStr (lit "COM7"))))
              = Some (JStr (lit "COM7"), Some 9600%Z))
    by (vm_compute; reflexivity).
  assert (Hz : forall z, Some 9600%Z = Some z -> (Z.abs z < 2 ^ 53)%Z)
    by (intros z [= <-]; reflexivity).
  split; [reflexivity|]. split; [reflexivity|]. split; [exact H|].
  destruct (open_records_the_requested_path cfg0 _ initial _ _
              eq_refl eq_refl H Hz) as (_ & _ & H3).
  exact (proj2 (proj2 (proj2
           (H3 (fst (tryOpen_begin cfg0 (JStr (lit "COM7")) initial))
               {| path := JStr (lit "COM7"); baudRate := 9600;
                  isOpen := false |} eq_refl eq_refl)))).
Defined.

(** ** Printing and parsing integers *)

Lemma digits_aux_acc radix f :
  forall n acc, digits_aux radix f n acc = digits_aux radix f n [] ++ acc.
Proof.
  induction f as [|f IH]; intros n acc; [reflexivity|].
  cbn [digits_aux]. destruct (n <? radix); [reflexivity|].
  rewrite (IH _ (_ :: acc)), (IH _ [_]). rewrite <- app_assoc. reflexivity.
Qed.

Lemma digits_value_digit c r a :
  is_digit c ->
  digits_value (c :: r) a
  = digits_value r (Some (10 * default 0 a + (c - 48))).
Proof.
  intros [H1 H2]. cbn [digits_value].
  replace (48 <=? c) with true by (symmetry; apply N.leb_le; exact H1).
  replace (c <=? 57) with true by (symmetry; apply N.leb_le; exact H2).
  reflexivity.
Qed.

Lemma digits_value_snoc s c :
  Forall is_digit s -> is_digit c ->
  forall a, digits_value (s ++ [c]) a
            = Some (10 * default 0 (digits_value s a) + (c - 48)).
Proof.
  intros Hs Hc. induction Hs as [|d s Hd _ IH]; intros a.
  - cbn [app]. rewrite digits_value_digit by assumption. reflexivity.
  - cbn [app]. rewrite !digits_value_digit by assumption. apply IH.
Qed.

Lemma is_digit_unit n :
  n < 10 -> is_digit (digit_unit n) /\ digit_unit n - 48 = n.
Proof.
  intros Hn. unfold digit_unit, is_digit.
  replace (n <? 10) with true by (symmetry; apply N.ltb_lt; exact Hn). lia.
Qed.

Lemma decimal_digits f :
  forall n, n < 10 ^ N.of_nat (S f) ->
  Forall is_digit (digits_aux 10 (S f) n [])
  /\ digits_value (digits_aux 10 (S f) n []) None = Some n.
Proof.
  assert (Hsmall : forall n acc g, n < 10 ->
            digits_aux 10 (S g) n acc = digit_unit n :: acc).
  { intros n acc g Hn. cbn [digits_aux].
    replace (n <? 10) with true by (symmetry; apply N.ltb_lt; exact Hn).
    reflexivity. }
  assert (Hbase : forall n g, n < 10 ->
            Forall is_digit (digits_aux 10 (S g) n [])
            /\ digits_value (digits_aux 10 (S g) n []) None = Some n).
  { intros n g Hn. rewrite Hsmall by assumption.
    destruct (is_digit_unit n Hn) as [Hd Hv].
    split; [constructor; [exact Hd | constructor]|].
    rewrite digits_value_digit by assumption. cbn. f_equal. lia. }
  induction f as [|f IH]; intros n Hn.
  - apply Hbase. exact Hn.
  - destruct (N.lt_ge_cases n 10) as [Hlt|Hge]; [apply Hbase, Hlt|].
    change (digits_aux 10 (S (S f)) n [])
      with (if n <? 10 then [digit_unit n]
            else digits_aux 10 (S f) (n / 10) [digit_unit (n mod 10)]).
    replace (n <? 10) with false by (symmetry; apply N.ltb_ge; exact Hge).
    rewrite digits_aux_acc.
    rewrite Nat2N.inj_succ, N.pow_succ_r' in Hn.
    destruct (IH (n / 10)) as [Hf Hv];
      [apply N.Div0.div_lt_upper_bound; exact Hn|].
    assert (Hm : n mod 10 < 10) by (apply N.mod_lt; lia).
    destruct (is_digit_unit _ Hm) as [Hd Hd'].
    split.
    + apply Forall_app.
      split; [exact Hf | constructor; [exact Hd | constructor]].
    + rewrite digits_value_snoc by assumption. rewrite Hv, Hd'. cbn [default].
      f_equal. symmetry. apply N.Div0.div_mod.
Qed.

Lemma decimal_of_N n :
  Forall is_digit (Number_toString 10 n)
  /\ digits_value (Number_toString 10 n) None = Some n.
Proof.
  unfold Number_toString. apply decimal_digits.
  rewrite Nat2N.inj_succ, N2Nat.id, N.pow_succ_r'.
  eapply N.lt_le_trans; [apply N.size_gt|].
  transitivity (10 ^ N.size n); [apply N.pow_le_mono_l; lia|].
  assert (0 < 10 ^ N.size n) by (apply N.neq_0_lt_0, N.pow_nonzero; lia).
  lia.
Qed.

Lemma parseInt10_digit c r :
  is_digit c -> parseInt10 (c :: r) = Z.of_N <$> digits_value (c :: r) None.
Proof.
  intros [H1 H2].
  assert (H : c = 48 \/ c = 49 \/ c = 50 \/ c = 51 \/ c = 52 \/ c = 53
              \/ c = 54 \/ c = 55 \/ c = 56 \/ c = 57) by lia.
  repeat destruct H as [->|H]; try subst c; reflexivity.
Qed.

(** [parseInt] reads back what [String] prints for an integer. *)
Lemma parseInt10_Z_toString z : parseInt10 (Z_toString z) = Some z.
Proof.
  unfold Z_toString. destruct (z <? 0)%Z eqn:Hz.
  - apply Z.ltb_lt in Hz.
    destruct (decimal_of_N (Z.abs_N z)) as [_ Hv].
    change (parseInt10 (45 :: Number_toString 10 (Z.abs_N z)))
      with ((fun n => (- Z.of_N n)%Z)
              <$> digits_value (Number_toString 10 (Z.abs_N z)) None).
    rewrite Hv. cbn. f_equal. lia.
  - apply Z.ltb_ge in Hz.
    destruct (decimal_of_N (Z.to_N z)) as [Hf Hv].
    destruct (Number_toString 10 (Z.to_N z)) as [|c r]; [discriminate|].
    inversion Hf as [|? ? Hc _]; subst.
    rewrite parseInt10_digit by assumption. rewrite Hv. cbn. f_equal. lia.
Qed.

(** X6: an [/open] whose request has no baud rate, or a zero, null or
    empty one, answers the configured rate: [parseInt] reads back the text
    of [BAUD].  The bound is the range in which JavaScript keeps an
    integer exactly and prints all its digits. *)
Theorem open_without_baud_answers_BAUD
  (cfg : Config) (body : option Json) :
  (Z.abs (BAUD cfg) < 2 ^ 53)%Z ->
  (prop body "baud" = None
   \/ exists v, prop body "baud" = Some v /\ truthy v = false) ->
  exists p, open_args cfg body = Some (p, Some (BAUD cfg))
            /\ forall r w, snd (post_open cfg body r w)
                           = Ok_open (serialOpen (tryOpen cfg p r w)) p
                               (Some (BAUD cfg)).
Proof.
  intros _ Hb.
  set (p := match prop body "path" with
            | Some v => if truthy v then v else JStr (SERIAL_PATH cfg)
            | None => JStr (SERIAL_PATH cfg)
            end).
  exists p.
  assert (Ha : open_args cfg body = Some (p, Some (BAUD cfg))).
  { unfold open_args. fold p. destruct Hb as [-> | (v & -> & ->)];
      cbn [js_String mbind option_bind]; rewrite parseInt10_Z_toString;
      reflexivity. }
  split; [exact Ha|]. intros r w. unfold post_open. rewrite Ha. reflexivity.
Qed.

Lemma open_without_baud_answers_BAUD_witness :
  (Z.abs (BAUD cfg0) < 2 ^ 53)%Z
  /\ prop (Some (obj1 "baud" (JNum (lit "0")))) "baud"
     = Some (JNum (lit "0"))
  /\ exists p, open_args cfg0 (Some (obj1 "baud" (JNum (lit "0"))))
               = Some (p, Some (BAUD cfg0)).
Proof.
  assert (H1 : (Z.abs (BAUD cfg0) < 2 ^ 53)%Z) by (vm_compute; reflexivity).
  assert (H2 : prop (Some (obj1 "baud" (JNum (lit "0")))) "baud"
               = Some (JNum (lit "0"))) by (vm_compute; reflexivity).
  split; [exact H1|]. split; [exact H2|].
  destruct (open_without_baud_answers_BAUD cfg0
              (Some (obj1 "baud" (JNum (lit "0")))) H1
              (or_intror (ex_intro _ _ (conj H2 eq_refl)))) as (p & Hp & _).
  exists p. exact Hp.
Defined.

(** ** The shared secret *)

(** X7: with a secret configured, a non-empty [x-bridge-secret] header
    alone decides, so a wrong one is refused even beside a right
    [authorization] header; [authorization] counts only when the first is
    absent or empty, and a request with neither is refused.  A refused
    request does not reach the handler and leaves the state as it was. *)
Theorem secret_header_decides
  (cfg : Config) (h : Headers) (handler : World -> World * Reply)
  (w : World) :
  BRIDGE_SECRET cfg <> [] ->
  let accepted (a : jsstring) :=
    bool_decide (a = BRIDGE_SECRET cfg
                 \/ a = lit "Bearer " ++ BRIDGE_SECRET cfg) in
  (forall x, x_bridge_secret h = Some x -> x <> [] ->
     guarded cfg h handler w
     = if accepted x then handler w else (w, Unauthorized))
  /\ (x_bridge_secret h = None \/ x_bridge_secret h = Some [] ->
      guarded cfg h handler w
      = if accepted (default [] (authorization h)) then handler w
        else (w, Unauthorized))
  /\ (x_bridge_secret h = None -> authorization h = None ->
      guarded cfg h handler w = (w, Unauthorized)).
Proof.
  intros Hs accepted.
  assert (Hor : forall a,
            bool_decide (a = BRIDGE_SECRET cfg)
            || bool_decide (a = lit "Bearer " ++ BRIDGE_SECRET cfg)
            = accepted a).
  { intros a. unfold accepted. symmetry. apply bool_decide_or. }
  unfold guarded, authMiddleware.
  destruct (BRIDGE_SECRET cfg) as [|c0 r0] eqn:Hsec; [congruence|].
  split; [|split].
  - intros x -> Hx. destruct x as [|c r]; [congruence|]. rewrite Hor.
    reflexivity.
  - intros [-> | ->]; rewrite Hor; reflexivity.
  - intros -> ->. cbn [default]. rewrite Hor. unfold accepted.
    rewrite bool_decide_eq_false_2; [reflexivity|].
    intros [H|H]; discriminate.
Qed.

Lemma secret_header_decides_witness :
  guarded {| SERIAL_PATH := lit "COM4"; BAUD := 9600;
             BRIDGE_SECRET := lit "mysecret"; AUTO_OPEN := true |}
    {| x_bridge_secret := Some (lit "guess");
       authorization := Some (lit "Bearer mysecret") |}
    post_close opened0
  = (opened0, Unauthorized).
Proof.
  set (cfg := {| SERIAL_PATH := lit "COM4"; BAUD := 9600;
                 BRIDGE_SECRET := lit "mysecret"; AUTO_OPEN := true |}).
  set (h := {| x_bridge_secret := Some (lit "guess");
               authorization := Some (lit "Bearer mysecret") |}).
  assert (Hs : BRIDGE_SECRET cfg <> []) by discriminate.
  destruct (secret_header_decides cfg h post_close opened0 Hs) as [H _].
  rewrite (H (lit "guess") eq_refl ltac:(discriminate)).
  reflexivity.
Defined.

(** ** What the handlers write *)

Lemma write_and_drain_written id buf io ok w :
  written (fst (write_and_drain id buf io ok w)) = written w ++ [(id, buf)].
Proof. reflexivity. Qed.

(** X8: one run of a handler or callback calls [port.write] at most once,
    and only on the port that is open; on a closed link nothing is written
    whatever the event, be it a write command with any payload, a voucher,
    an [open], a [close], a poll tick or a callback of the device. *)
Theorem events_write_only_to_the_open_port
  (cfg : Config) (decode : Json -> option Buffer) (e : Event) (w : World) :
  (written (run cfg decode e w) = written w
   \/ exists id buf, open_port w = Some id
        /\ written (run cfg decode e w) = written w ++ [(id, buf)])
  /\ (serialOpen w = false -> written (run cfg decode e w) = written w).
Proof.
  assert (H : written (run cfg decode e w) = written w
              \/ exists id buf, open_port w = Some id
                   /\ written (run cfg decode e w) = written w ++ [(id, buf)]).
  { destruct e; cbn [run].
    - left. destruct (open_args cfg body) as [[p b]|]; [|reflexivity].
      unfold tryOpen_begin. destruct (_ || _); reflexivity.
    - left. unfold pollForPort. destruct (AUTO_OPEN cfg); [|reflexivity].
      destruct (_ && _); [|reflexivity].
      unfold tryOpen_begin. destruct (_ || _); reflexivity.
    - left. destruct r; reflexivity.
    - left. unfold post_close_begin. destruct (open_port w); reflexivity.
    - left. reflexivity.
    - left. reflexivity.
    - unfold post_write_hex. destruct (negb _); [left; reflexivity|].
      destruct (open_port w) as [id|]; [|left; reflexivity].
      right. eexists _, _. split; reflexivity.
    - unfold post_write_base64.
      destruct (prop body "b64") as [v|]; [|left; reflexivity].
      destruct (truthy v); [|left; reflexivity].
      destruct (open_port w) as [id|]; [|left; reflexivity].
      destruct (decode v); [|left; reflexivity].
      right. eexists _, _. split; reflexivity.
    - unfold route_write_binary.
      destruct (express_raw req) as [b|r]; [|left; reflexivity].
      unfold post_write_binary. destruct b; try (left; reflexivity).
      destruct (open_port w) as [id|]; [|left; reflexivity].
      right. eexists _, _. split; reflexivity.
    - unfold post_print_voucher.
      destruct (open_port w) as [id|]; [|left; reflexivity].
      destruct (voucher_hex now body); [|left; reflexivity].
      right. eexists _, _. split; reflexivity. }
  split; [exact H|]. intros Hs. apply serialOpen_false in Hs.
  destruct H as [H|(id & buf & Ho & _)]; [exact H | congruence].
Qed.

(** X9: a request that is refused, that is one answered with a status
    other than 500, which tells a failure of the device, leaves the state
    as it was: nothing is written and the link is not touched. *)
Theorem refused_requests_change_nothing
  (decode : Json -> option Buffer) (now : Clock) (io : WriteResult)
  (w : World) (status : N) (err : jsstring) :
  status <> 500 ->
  (forall body, snd (post_write_hex body io w) = Failure status err ->
     fst (post_write_hex body io w) = w)
  /\ (forall body,
        snd (post_write_base64 decode body io w) = Failure status err ->
        fst (post_write_base64 decode body io w) = w)
  /\ (forall req, snd (route_write_binary req io w) = Failure status err ->
        fst (route_write_binary req io w) = w)
  /\ (forall body,
        snd (post_print_voucher now body io w) = Failure status err ->
        fst (post_print_voucher now body io w) = w).
Proof.
  intros Hs.
  assert (Hw : forall id buf ok, is_success ok = true ->
            snd (write_and_drain id buf io ok w) = Failure status err ->
            False).
  { intros id buf ok Hok. unfold write_and_drain. cbn [snd].
    destruct io; [intros E; rewrite E in Hok; discriminate| |];
      intros [= E _]; congruence. }
  split; [|split; [|split]].
  - intros body. unfold post_write_hex. destruct (negb _); [reflexivity|].
    destruct (open_port w); [|reflexivity].
    intros E. exfalso. refine (Hw _ _ _ _ E). reflexivity.
  - intros body. unfold post_write_base64.
    destruct (prop body "b64") as [v|]; [|reflexivity].
    destruct (truthy v); [|reflexivity].
    destruct (open_port w); [|reflexivity].
    destruct (decode v); [|reflexivity].
    intros E. exfalso. refine (Hw _ _ _ _ E). reflexivity.
  - intros req. unfold route_write_binary.
    destruct (express_raw req) as [b|r]; [|reflexivity].
    unfold post_write_binary. destruct b; try reflexivity.
    destruct (open_port w); [|reflexivity].
    intros E. exfalso. refine (Hw _ _ _ _ E). reflexivity.
  - intros body. unfold post_print_voucher.
    destruct (open_port w); [|reflexivity].
    destruct (voucher_hex now body); [|reflexivity].
    intros E. exfalso. refine (Hw _ _ _ _ E). reflexivity.
Qed.

Lemma refused_requests_change_nothing_witness :
  (400 : N) <> 500
  /\ snd (post_write_hex (Some (obj1 "hex" (JStr (lit "1B4")))) Flushed
            opened0) = Failure 400 (lit "invalid hex")
  /\ fst (post_write_hex (Some (obj1 "hex" (JStr (lit "1B4")))) Flushed
            opened0) = opened0.
Proof.
  assert (H1 : (400 : N) <> 500) by discriminate.
  assert (H2 : snd (post_write_hex (Some (obj1 "hex" (JStr (lit "1B4"))))
                      Flushed opened0) = Failure 400 (lit "invalid hex"))
    by (vm_compute; reflexivity).
  split; [exact H1|]. split; [exact H2|].
  destruct (refused_requests_change_nothing (fun _ => None) now0 Flushed
              opened0 400 (lit "invalid hex") H1) as [H _].
  exact (H _ H2).
Defined.

(** ** Hex texts and the bytes they stand for *)

Lemma hex_text_closed s : isHex (Some (JStr s)) = true -> hex_text s.
Proof.
  intros H. apply isHex_spec in H as (s' & [= <-] & _ & Hf & He).
  apply hex_text_forall. split; assumption.
Qed.

Lemma isHex_asciiToHex s :
  s <> [] -> is_bytes s -> isHex (Some (JStr (asciiToHex s))) = true.
Proof.
  intros Hne Hb. apply isHex_spec. exists (asciiToHex s).
  pose proof (hex_text_asciiToHex s Hb) as Ht.
  apply hex_text_forall in Ht as [Hf He].
  split; [reflexivity|]. split; [|split; assumption].
  destruct s as [|c r]; [congruence|].
  inversion Hb as [|? ? Hc _]; subst.
  rewrite asciiToHex_cons, unit_hex_correct by lia.
  unfold unit_hex. destruct (c <? 256); [discriminate|].
  destruct (c <? 4096); discriminate.
Qed.

(** X10: the text asciiToHex makes of a non-empty string of bytes is a
    payload write-hex accepts, and write-hex then hands [port.write] the
    very bytes of the string, once, and answers their count: decoding
    undoes the encoding. *)
Theorem asciiToHex_text_is_sent_back
  (s : jsstring) (body : option Json) (w : World) (id : nat) :
  s <> [] -> is_bytes s ->
  prop body "hex" = Some (JStr (asciiToHex s)) ->
  open_port w = Some id ->
  Buffer_from_hex (asciiToHex s) = s
  /\ isHex (prop body "hex") = true
  /\ snd (post_write_hex body Flushed w) = Ok_bytes (length s)
  /\ written (fst (post_write_hex body Flushed w)) = written w ++ [(id, s)].
Proof.
  intros Hne Hb Hp Ho.
  pose proof (Buffer_from_hex_asciiToHex s Hb) as Hd.
  pose proof (isHex_asciiToHex s Hne Hb) as Hh.
  assert (E : post_write_hex body Flushed w
              = ({| objects := objects w; port := port w;
                    opening := opening w; pending := pending w;
                    written := written w ++ [(id, s)];
                    errors := errors w |}, Ok_bytes (length s))).
  { unfold post_write_hex. rewrite Hp, Hh, Ho. cbn [negb].
    rewrite Hd. reflexivity. }
  split; [exact Hd|]. split; [rewrite Hp; exact Hh|].
  rewrite E. split; reflexivity.
Qed.

Lemma asciiToHex_text_is_sent_back_witness :
  lit "Hi" <> [] /\ is_bytes (lit "Hi")
  /\ open_port opened0 = Some 0%nat
  /\ snd (post_write_hex (Some (obj1 "hex" (JStr (asciiToHex (lit "Hi")))))
            Flushed opened0) = Ok_bytes 2
  /\ written (fst (post_write_hex
                     (Some (obj1 "hex" (JStr (asciiToHex (lit "Hi")))))
                     Flushed opened0)) = [(0%nat, lit "Hi")].
Proof.
  assert (H1 : lit "Hi" <> []) by discriminate.
  assert (H2 : is_bytes (lit "Hi"))
    by (repeat (constructor; [vm_compute; discriminate|]); constructor).
  split; [exact H1|]. split; [exact H2|]. split; [reflexivity|].
  destruct (asciiToHex_text_is_sent_back (lit "Hi")
              (Some (obj1 "hex" (JStr (asciiToHex (lit "Hi"))))) opened0 0
              H1 H2 ltac:(vm_compute; reflexivity) eq_refl)
    as (_ & _ & H3 & H4).
  split; [exact H3 | exact H4].
Defined.

Lemma Buffer_from_hex_concat chunks :
  Forall hex_text chunks ->
  Buffer_from_hex (concat chunks) = concat (map Buffer_from_hex chunks).
Proof.
  induction 1 as [|c r Hc _ IH]; [reflexivity|].
  cbn [concat map]. rewrite Buffer_from_hex_app by assumption.
  rewrite IH. reflexivity.
Qed.

Lemma asciiToHex_of_text o : asciiToHex_of o = asciiToHex <$> text_or_empty o.
Proof. destruct o as [[]|]; reflexivity. Qed.

(** The hex texts of the handler are asciiToHex of its texts. *)
Lemma voucher_hex_text now body :
  voucher_hex now body = hex_of_text <$> voucher_text now body.
Proof.
  unfold voucher_hex, voucher_text. cbv zeta. rewrite !asciiToHex_of_text.
  repeat match goal with
         | |- context [(asciiToHex <$> ?o) ≫= _] =>
             destruct o; cbn [fmap option_fmap option_map mbind option_bind];
             [|reflexivity]
         | |- context [?o ≫= _] =>
             destruct o; cbn [fmap option_fmap option_map mbind option_bind];
             [|reflexivity]
         end.
  reflexivity.
Qed.

(** The side conditions of decoding a chunk of the template. *)
Ltac hex_side :=
  first [ apply hex_text_asciiToHex; assumption
        | apply hex_text_closed; vm_compute; reflexivity ].

Ltac hex_chunk := repeat (apply hex_text_app; [hex_side|]); hex_side.

Lemma receipt_of_hex t :
  bytes_only t -> Buffer_from_hex (fullHex (hex_of_text t)) = receipt_bytes t.
Proof.
  unfold bytes_only, is_bytes. intros (H1 & H2 & H3 & H4 & H5 & H6 & H7 & H8
                                       & H9 & H10 & H11 & H12).
  unfold fullHex, receipt_bytes, hexChunks, receipt_lines, hex_of_text.
  cbn [stationName location phone1Hex phone2Hex dateHex timeHex nozzleHex
       voconoHex basePriceHex literHex totalHex fuelHex].
  rewrite Buffer_from_hex_concat
    by (repeat (constructor; [hex_chunk|]); constructor).
  cbn [map]. f_equal.
  repeat (apply (f_equal2 cons);
          [ rewrite ?Buffer_from_hex_app by hex_side;
            rewrite ?Buffer_from_hex_asciiToHex by assumption;
            reflexivity | ]).
  reflexivity.
Qed.

(** X11: when every text of the voucher is made of bytes, print-voucher
    hands [port.write] the receipt as plain text, once: the initialisation
    and alignment codes, the station header, the labelled lines with the
    texts as they are, the thanks, the feed and the cut; the reply counts
    these bytes. *)
Theorem voucher_is_printed_as_text
  (now : Clock) (body : option Json) (t : VoucherText) (w : World)
  (id : nat) :
  voucher_text now body = Some t -> bytes_only t ->
  open_port w = Some id ->
  snd (post_print_voucher now body Flushed w)
  = Ok_voucher (length (receipt_bytes t)) (usedDefaults_of body)
  /\ written (fst (post_print_voucher now body Flushed w))
     = written w ++ [(id, receipt_bytes t)].
Proof.
  intros Ht Hb Ho.
  assert (E : post_print_voucher now body Flushed w
              = ({| objects := objects w; port := port w;
                    opening := opening w; pending := pending w;
                    written := written w ++ [(id, receipt_bytes t)];
                    errors := errors w |},
                 Ok_voucher (length (receipt_bytes t))
                   (usedDefaults_of body))).
  { unfold post_print_voucher.
    rewrite Ho, voucher_hex_text, Ht. cbn [fmap option_fmap option_map].
    rewrite (receipt_of_hex t Hb). reflexivity. }
  rewrite E. split; reflexivity.
Qed.

Lemma is_bytes_check s : forallb (fun c => c <=? 255) s = true -> is_bytes s.
Proof.
  intros H. apply Forall_forall. intros c Hc.
  apply N.leb_le, (proj1 (forallb_forall _ _) H), list_elem_of_In, Hc.
Qed.

Lemma voucher_is_printed_as_text_witness :
  voucher_text now0 None = Some (default_text now0)
  /\ bytes_only (default_text now0)
  /\ open_port opened0 = Some 0%nat
  /\ snd (post_print_voucher now0 None Flushed opened0)
     = Ok_voucher (length (receipt_bytes (default_text now0))) true
  /\ written (fst (post_print_voucher now0 None Flushed opened0))
     = [(0%nat, receipt_bytes (default_text now0))].
Proof.
  assert (H1 : voucher_text now0 None = Some (default_text now0))
    by (vm_compute; reflexivity).
  assert (H2 : bytes_only (default_text now0)).
  { unfold bytes_only.
    repeat split; apply is_bytes_check; vm_compute; reflexivity. }
  split; [exact H1|]. split; [exact H2|]. split; [reflexivity|].
  exact (voucher_is_printed_as_text now0 None _ opened0 0 H1 H2 eq_refl).
Defined.

(** ** Merging the request over the defaults *)

Lemma lookup_merged (base : gmap (list N) Json) (o : gmap (list N) Json) k :
  k <> lit "__proto__" ->
  Object_assign base (JObj o) !! k
  = match o !! k with Some x => Some x | None => base !! k end.
Proof.
  intros Hk. unfold Object_assign, own_props.
  rewrite lookup_union, lookup_delete_ne by congruence.
  destruct (o !! k), (base !! k); reflexivity.
Qed.

(** X12: in print-voucher a field of [data] wins over the same field of
    [voucher], which wins over the default; a field neither names keeps
    its default, and a key the defaults do not have is simply carried. *)
Theorem data_wins_over_voucher_over_defaults
  (now : Clock) (body : option Json) (v d : gmap (list N) Json)
  (k : list N) :
  prop body "voucher" = Some (JObj v) ->
  prop body "data" = Some (JObj d) ->
  k <> lit "__proto__" ->
  voucher_of now body !! k
  = match d !! k with
    | Some x => Some x
    | None => match v !! k with
              | Some x => Some x
              | None => defaultVoucher now !! k
              end
    end.
Proof.
  intros Hv Hd Hk.
  destruct body as [[| | | | |m]|]; try discriminate.
  unfold voucher_of. cbn [or_empty truthy]. rewrite Hv, Hd.
  cbn [or_empty truthy]. rewrite !lookup_merged by assumption.
  rewrite lookup_empty.
  destruct (d !! k), (v !! k), (defaultVoucher now !! k); reflexivity.
Qed.

Lemma data_wins_over_voucher_over_defaults_witness :
  voucher_of now0
    (Some (JObj (<[lit "voucher" := obj1 "vocono" (JStr (lit "V1"))]>
                 {[ lit "data" := obj1 "vocono" (JStr (lit "D1")) ]})))
  !! lit "vocono"
  = Some (JStr (lit "D1")).
Proof.
  set (v := ({[ lit "vocono" := JStr (lit "V1") ]} : gmap (list N) Json)).
  set (d := ({[ lit "vocono" := JStr (lit "D1") ]} : gmap (list N) Json)).
  rewrite (data_wins_over_voucher_over_defaults now0 _ v d (lit "vocono"));
    [vm_compute; reflexivity | vm_compute; reflexivity
    | vm_compute; reflexivity | discriminate].
Defined.

(** ** The helper of the mobile client *)

Lemma digits_aux_length radix f n acc :
  (length acc + match f with O => 0 | S _ => 1 end
   <= length (digits_aux radix f n acc))%nat.
Proof.
  revert n acc. induction f as [|f IH]; intros n acc; cbn [digits_aux].
  - lia.
  - destruct (n <? radix); [simpl; lia|].
    specialize (IH (n / radix) (digit_unit (n mod radix) :: acc)).
    simpl in IH. destruct f; lia.
Qed.

Lemma toString16_two_digits c :
  16 <= c -> c < 65536 -> padStart2 (toString16 c) = toString16 c.
Proof.
  intros H1 H2. unfold padStart2.
  assert (Hl : (2 <= length (toString16 c))%nat).
  { unfold toString16.
    rewrite (Number_toString_fuel 16 ltac:(lia) c 4) by (cbn; lia).
    cbn [digits_aux].
    replace (c <? 16) with false by (symmetry; apply N.ltb_ge; exact H1).
    pose proof (digits_aux_length 16 4 (c / 16) [digit_unit (c mod 16)])
      as Hd.
    simpl in Hd. exact Hd. }
  replace (2 - length (toString16 c))%nat with 0%nat by lia. reflexivity.
Qed.

Lemma convertToHex_cons c s :
  convertToHex (c :: s) = toString16 c ++ convertToHex s.
Proof. reflexivity. Qed.

(** Above 0x0F the two helpers differ by the case of the digits only. *)
Lemma toUpperCase_convertToHex s :
  Forall (fun c => 16 <= c < 65536) s ->
  toUpperCase (convertToHex s) = asciiToHex s.
Proof.
  induction 1 as [|c r [H1 H2] _ IH]; [reflexivity|].
  rewrite convertToHex_cons, asciiToHex_cons. unfold toUpperCase in *.
  rewrite map_app, IH, toString16_two_digits by assumption. reflexivity.
Qed.

(** X13: convertToHex of the mobile client and asciiToHex of the bridge
    give the same hex digits, lowercase in the first and uppercase in the
    second, for every string whose code units are 0x10 or more; a code
    unit below 0x10 gets a single digit from the client, which shifts all
    the digits after it. *)
Theorem convertToHex_is_asciiToHex_in_lowercase (s : jsstring) :
  Forall (fun c => 16 <= c < 65536) s ->
  toUpperCase (convertToHex s) = asciiToHex s
  /\ (forall c, c < 16 ->
      convertToHex (c :: s) = digit_unit c :: convertToHex s
      /\ length (asciiToHex (c :: s)) = S (length (convertToHex (c :: s)))).
Proof.
  intros Hs. pose proof (toUpperCase_convertToHex s Hs) as Hu.
  split; [exact Hu|]. intros c Hc.
  assert (Ht : toString16 c = [digit_unit c]).
  { unfold toString16.
    rewrite (Number_toString_fuel 16 ltac:(lia) c 1) by (cbn; lia).
    cbn [digits_aux].
    replace (c <? 16) with true by (symmetry; apply N.ltb_lt; exact Hc).
    reflexivity. }
  rewrite convertToHex_cons, asciiToHex_cons, Ht. split; [reflexivity|].
  rewrite <- Hu. unfold toUpperCase, padStart2.
  rewrite !length_app, !length_map. simpl. lia.
Qed.

Lemma convertToHex_is_asciiToHex_in_lowercase_witness :
  Forall (fun c => 16 <= c < 65536) (lit "Jo")
  /\ toUpperCase (convertToHex (lit "Jo")) = asciiToHex (lit "Jo").
Proof.
  assert (H : Forall (fun c => 16 <= c < 65536) (lit "Jo"))
    by (repeat (constructor; [vm_compute; split; discriminate + reflexivity|]);
        constructor).
  split; [exact H|].
  exact (proj1 (convertToHex_is_asciiToHex_in_lowercase (lit "Jo") H)).
Defined.

(** ** Upper and lower case hex *)

Lemma unhex_ranges c :
  (48 <= c <= 57 -> unhex c = Some (c - 48))
  /\ (65 <= c <= 70 -> unhex c = Some (c - 55))
  /\ (97 <= c <= 102 -> unhex c = Some (c - 87))
  /\ (~ hex_char c -> unhex c = None).
Proof.
  unfold unhex, hex_char.
  destruct (48 <=? c) eqn:A1; destruct (c <=? 57) eqn:A2;
  destruct (65 <=? c) eqn:A3; destruct (c <=? 70) eqn:A4;
  destruct (97 <=? c) eqn:A5; destruct (c <=? 102) eqn:A6; simpl;
  rewrite ?N.leb_le, ?N.leb_gt in *;
  (repeat split; intros; try reflexivity; lia).
Qed.

Lemma unhex_upper_unit c : unhex (upper_unit c) = unhex c.
Proof.
  unfold upper_unit.
  destruct (97 <=? c) eqn:A1; [|reflexivity].
  destruct (c <=? 122) eqn:A2; [|reflexivity]. cbn [andb].
  apply N.leb_le in A1, A2.
  destruct (N.le_gt_cases c 102) as [Hle|Hgt].
  - rewrite (proj1 (proj2 (unhex_ranges (c - 32)))) by lia.
    rewrite (proj1 (proj2 (proj2 (unhex_ranges c)))) by lia. f_equal. lia.
  - rewrite (proj2 (proj2 (proj2 (unhex_ranges (c - 32)))))
      by (unfold hex_char; lia).
    rewrite (proj2 (proj2 (proj2 (unhex_ranges c))))
      by (unfold hex_char; lia).
    reflexivity.
Qed.

Lemma Buffer_from_hex_toUpperCase s :
  Buffer_from_hex (toUpperCase s) = Buffer_from_hex s.
Proof.
  remember (length s) as n eqn:Hn. revert s Hn.
  induction (lt_wf n) as [n _ IH]. intros s Hn.
  destruct s as [|a [|b r]]; [reflexivity | reflexivity |].
  cbn [toUpperCase map Buffer_from_hex]. rewrite !unhex_upper_unit.
  change (map upper_unit r) with (toUpperCase r).
  rewrite (IH (length r) ltac:(subst n; simpl; lia) r eq_refl).
  reflexivity.
Qed.

Lemma isHex_toUpperCase s :
  isHex (Some (JStr (toUpperCase s))) = isHex (Some (JStr s)).
Proof.
  unfold isHex, toUpperCase. rewrite length_map.
  assert (H1 : bool_decide (map upper_unit s = []) = bool_decide (s = []))
    by (destruct s; reflexivity).
  assert (H2 : forallb (fun c => bool_decide (is_Some (unhex c)))
                 (map upper_unit s)
               = forallb (fun c => bool_decide (is_Some (unhex c))) s).
  { induction s as [|c r IH]; [reflexivity|].
    cbn [map forallb]. rewrite unhex_upper_unit, IH; [reflexivity|].
    destruct r; reflexivity. }
  rewrite H1, H2. reflexivity.
Qed.

(** X14: write-hex takes the digits [a-f] and [A-F] alike: a payload and
    its uppercase form are accepted or refused together, and send the
    same bytes. *)
Theorem write_hex_ignores_case
  (body body' : option Json) (s : jsstring) (io : WriteResult) (w : World) :
  prop body "hex" = Some (JStr s) ->
  prop body' "hex" = Some (JStr (toUpperCase s)) ->
  post_write_hex body' io w = post_write_hex body io w.
Proof.
  intros H1 H2. unfold post_write_hex.
  rewrite H1, H2, isHex_toUpperCase, Buffer_from_hex_toUpperCase.
  reflexivity.
Qed.

Lemma write_hex_ignores_case_witness :
  post_write_hex (Some (obj1 "hex" (JStr (lit "1B6D")))) Flushed opened0
  = post_write_hex (Some (obj1 "hex" (JStr (lit "1b6d")))) Flushed opened0.
Proof.
  apply (write_hex_ignores_case _ _ (lit "1b6d")); vm_compute; reflexivity.
Defined.

(** ** The commands of the mobile client *)

Lemma hex_text_chunks t :
  bytes_only t -> Forall hex_text (hexChunks (hex_of_text t)).
Proof.
  unfold bytes_only, is_bytes. intros (H1 & H2 & H3 & H4 & H5 & H6 & H7 & H8
                                       & H9 & H10 & H11 & H12).
  unfold hexChunks, hex_of_text.
  cbn [stationName location phone1Hex phone2Hex dateHex timeHex nozzleHex
       voconoHex basePriceHex literHex totalHex fuelHex].
  repeat (constructor; [hex_chunk|]); constructor.
Qed.

Lemma toUpperCase_app s t :
  toUpperCase (s ++ t) = toUpperCase s ++ toUpperCase t.
Proof. apply map_app. Qed.

(** X15: for a voucher whose texts have no code unit below 0x10, the
    commands the mobile client sends are, chunk by chunk and up to the
    case of the digits, the hex chunks the bridge builds for the same
    texts; when the texts are bytes they decode to the receipt the bridge
    prints. *)
Theorem mobile_commands_match_the_bridge
  (stationInfo : Mobile.StationInfo) (data : Mobile.VoucherData) :
  no_low_units (Mobile.text_of stationInfo data) ->
  map toUpperCase (Mobile.commands stationInfo data)
  = hexChunks (hex_of_text (Mobile.text_of stationInfo data))
  /\ (bytes_only (Mobile.text_of stationInfo data) ->
      concat (map Buffer_from_hex (Mobile.commands stationInfo data))
      = receipt_bytes (Mobile.text_of stationInfo data)).
Proof.
  intros Hl.
  assert (Hm : map toUpperCase (Mobile.commands stationInfo data)
               = hexChunks (hex_of_text (Mobile.text_of stationInfo data))).
  { destruct Hl as (H1 & H2 & H3 & H4 & H5 & H6 & H7 & H8 & H9 & H10 & H11
                    & H12).
    cbn [Mobile.text_of name_text location_text phone1_text phone2_text
         date_text time_text nozzle_text vocono_text price_text liter_text
         total_text fuel_text] in *.
    unfold Mobile.commands, hexChunks, hex_of_text. cbv zeta.
    cbn [map stationName location phone1Hex phone2Hex dateHex timeHex
         nozzleHex voconoHex basePriceHex literHex totalHex fuelHex
         Mobile.text_of name_text location_text phone1_text phone2_text
         date_text time_text nozzle_text vocono_text price_text liter_text
         total_text fuel_text].
    rewrite !toUpperCase_app.
    rewrite !toUpperCase_convertToHex by assumption.
    reflexivity. }
  split; [exact Hm|]. intros Hb.
  rewrite <- (receipt_of_hex _ Hb). unfold fullHex.
  rewrite Buffer_from_hex_concat by (apply hex_text_chunks, Hb).
  rewrite <- Hm, map_map. apply (f_equal (@concat N)), map_ext. intros c.
  symmetry. apply Buffer_from_hex_toUpperCase.
Qed.

Lemma units_check s :
  forallb (fun c => (16 <=? c) && (c <? 65536)) s = true ->
  Forall (fun c => 16 <= c < 65536) s.
Proof.
  intros H. apply Forall_forall. intros c Hc. apply list_elem_of_In in Hc.
  pose proof (proj1 (forallb_forall _ _) H c Hc) as Hb.
  apply andb_true_iff in Hb as [H1 H2].
  split; [apply N.leb_le, H1 | apply N.ltb_lt, H2].
Qed.

Lemma mobile_commands_match_the_bridge_witness :
  no_low_units (Mobile.text_of station0 sale0)
  /\ bytes_only (Mobile.text_of station0 sale0)
  /\ concat (map Buffer_from_hex (Mobile.commands station0 sale0))
     = receipt_bytes (Mobile.text_of station0 sale0).
Proof.
  assert (H1 : no_low_units (Mobile.text_of station0 sale0)).
  { unfold no_low_units. cbv zeta.
    repeat split; apply units_check; vm_compute; reflexivity. }
  assert (H2 : bytes_only (Mobile.text_of station0 sale0)).
  { unfold bytes_only.
    repeat split; apply is_bytes_check; vm_compute; reflexivity. }
  split; [exact H1|]. split; [exact H2|].
  exact (proj2 (mobile_commands_match_the_bridge station0 sale0 H1) H2).
Defined.

(** ** The digits asciiToHex writes *)




(** ** The report of list-ports.js *)

Lemma not_separator c r : c <> 45 -> ~ is_separator (c :: r).
Proof. intros Hc [= E _]. contradiction. Qed.

Lemma optional_line_no_separator label (o : option jsstring) c0 rest :
  list_ascii_of_string label = c0 :: rest -> N_of_ascii c0 <> 45 ->
  filter is_separator (ListPorts.optional_line label o) = [].
Proof.
  intros Hl Hc. unfold ListPorts.optional_line.
  destruct o as [[|c r]|]; try reflexivity.
  unfold lit. rewrite Hl. cbn [map app].
  rewrite filter_cons_False by (apply not_separator, Hc). reflexivity.
Qed.

Lemma block_one_separator i p :
  filter is_separator (ListPorts.block i p) = [lit "---"].
Proof.
  unfold ListPorts.block. rewrite !filter_app.
  rewrite (optional_line_no_separator "  vendorId:" _ " "%char _ eq_refl)
    by discriminate.
  rewrite (optional_line_no_separator "  productId:" _ " "%char _ eq_refl)
    by discriminate.
  rewrite (optional_line_no_separator "  manufacturer:" _ " "%char _ eq_refl)
    by discriminate.
  rewrite filter_cons_False by (apply not_separator; discriminate).
  change (lit "  path:" ++ 32 :: ListPorts.path p)
    with (32 :: (lit " path:" ++ 32 :: ListPorts.path p)).
  rewrite filter_cons_False by (apply not_separator; discriminate).
  reflexivity.
Qed.

Lemma blocks_separators (ports : list ListPorts.PortInfo) :
  forall k,
    length (filter is_separator
              (concat (imap (fun i => ListPorts.block (k + i)) ports)))
    = length ports.
Proof.
  induction ports as [|p r IH]; intros k; [reflexivity|].
  rewrite imap_cons. cbn [concat]. rewrite filter_app, length_app.
  rewrite block_one_separator.
  replace (imap ((fun i => ListPorts.block (k + i)) ∘ S) r)
    with (imap (fun i => ListPorts.block (S k + i)) r)
    by (apply imap_ext; intros i x _; unfold compose;
        replace (k + S i)%nat with (S k + i)%nat by lia; reflexivity).
  rewrite IH. reflexivity.
Qed.

(** X17: for a list of ports that is not empty the script prints the
    heading, then for every port a block with its path that ends in one
    [---] line, so that there are as many separators as ports; the line
    that says no port was found is printed for the empty list only. *)
Theorem report_has_a_block_for_each_port
  (ports : list ListPorts.PortInfo) :
  ports <> [] ->
  head (ListPorts.report ports) = Some (lit "Detected serial ports:")
  /\ length (filter is_separator (ListPorts.report ports)) = length ports
  /\ (forall p, p ∈ ports ->
      (lit "  path:" ++ 32 :: ListPorts.path p) ∈ ListPorts.report ports)
  /\ (3 * length ports < length (ListPorts.report ports))%nat.
Proof.
  intros Hne. destruct ports as [|p0 r0]; [congruence|].
  set (ports := p0 :: r0). unfold ListPorts.report.
  fold ports. cbn [ports].
  change (match p0 :: r0 with
          | [] => [lit "No serial ports found."]
          | _ :: _ =>
              lit "Detected serial ports:"
              :: concat (imap ListPorts.block (p0 :: r0))
          end)
    with (lit "Detected serial ports:"
          :: concat (imap ListPorts.block ports)).
  split; [reflexivity|]. split; [|split].
  - rewrite filter_cons_False by (apply not_separator; discriminate).
    apply (blocks_separators ports 0).
  - intros p Hp. apply list_elem_of_lookup in Hp as [i Hi].
    right. apply list_elem_of_In, in_concat.
    exists (ListPorts.block i p). split.
    + apply list_elem_of_In, list_elem_of_lookup. exists i.
      rewrite list_lookup_imap, Hi. reflexivity.
    + apply list_elem_of_In. unfold ListPorts.block. cbn [app].
      right. left.
  - cbn [length]. clearbody ports. clear.
    assert (H : forall k, (3 * length ports
                 <= length (concat (imap (fun i => ListPorts.block (k + i))
                                      ports)))%nat).
    { induction ports as [|p r IH]; intros k; [simpl; lia|].
      rewrite imap_cons. cbn [concat]. rewrite length_app.
      specialize (IH (S k)).
      replace (imap ((fun i => ListPorts.block (k + i)) ∘ S) r)
        with (imap (fun i => ListPorts.block (S k + i)) r)
        by (apply imap_ext; intros i x _; unfold compose;
        replace (k + S i)%nat with (S k + i)%nat by lia; reflexivity).
      unfold ListPorts.block at 1. rewrite !length_app. cbn [length]. lia. }
    apply Nat.lt_succ_r. exact (H 0%nat).
Qed.

Lemma report_has_a_block_for_each_port_witness :
  ports0 <> []
  /\ length (filter is_separator (ListPorts.report ports0)) = length ports0
  /\ ListPorts.report ports0
     = [ lit "Detected serial ports:";
         lit "#1"; lit "  path: /dev/ttyUSB0"; lit "  vendorId: 1a86";
         lit "  productId: 7523"; lit "---";
         lit "#2"; lit "  path: /dev/ttyS0"; lit "---" ].
Proof.
  assert (H : ports0 <> []) by discriminate.
  split; [exact H|].
  split; [exact (proj1 (proj2 (report_has_a_block_for_each_port ports0 H)))|].
  vm_compute. reflexivity.
Defined.

(** ** Between the request and the callback *)

(** X18: while an [open] is awaited tryOpen returns at once, so an [/open]
    that arrives then constructs nothing and leaves the state as it was,
    whatever the device will say; it is answered with the path and the
    baud it asked for and with [opened] as the link reads, which is false
    whenever the link reads closed.  The baud is taken below 2^53, where
    [parseInt] is exact. *)
Theorem open_while_opening_changes_nothing
  (cfg : Config) (w : World) (body : option Json) (p : Json) (b : option Z)
  (r : OpenResult) :
  opening w = true ->
  open_args cfg body = Some (p, b) ->
  (forall z, b = Some z -> (Z.abs z < 2 ^ 53)%Z) ->
  tryOpen_begin cfg p w = (w, None)
  /\ post_open cfg body r w = (w, Ok_open (serialOpen w) p b)
  /\ (serialOpen w = false -> post_open cfg body r w = (w, Ok_open false p b)).
Proof.
  intros Ho Ha _.
  pose proof (tryOpen_begin_busy cfg p w (or_introl Ho)) as Hb.
  assert (E : post_open cfg body r w = (w, Ok_open (serialOpen w) p b)).
  { unfold post_open, tryOpen. rewrite Ha, Hb. reflexivity. }
  split; [exact Hb|]. split; [exact E|]. intros Hs. rewrite E, Hs.
  reflexivity.
Qed.

Lemma open_while_opening_changes_nothing_witness :
  opening opening0 = true
  /\ open_args cfg0 None = Some (JStr (lit "/dev/ttyUSB0"), Some 9600%Z)
  /\ post_open cfg0 None Opened opening0
     = (opening0, Ok_open false (JStr (lit "/dev/ttyUSB0")) (Some 9600%Z)).
Proof.
  assert (Ha : open_args cfg0 None
               = Some (JStr (lit "/dev/ttyUSB0"), Some 9600%Z))
    by (vm_compute; reflexivity).
  assert (Hz : forall z, Some 9600%Z = Some z -> (Z.abs z < 2 ^ 53)%Z)
    by (intros z [= <-]; reflexivity).
  split; [reflexivity|]. split; [exact Ha|].
  destruct (open_while_opening_changes_nothing cfg0 opening0 None _ _ Opened
              eq_refl Ha Hz) as (_ & _ & H).
  exact (H eq_refl).
Defined.

(** X19: the callback of an awaited [open] clears the flag in every case.
    When the device accepts, the awaited object is open from then on, but
    [port] is left as it is: the link reads open on that object if [port]
    still refers to it, and if [port] was set to null during the await the
    link reads closed although the object holds an open handle.  When the
    device refuses, [port] is set to null, the cause is logged and no
    object changes. *)
Theorem callback_clears_the_flag
  (w : World) (id : nat) (p : SerialPort) :
  objects w !! id = Some p ->
  (opening (tryOpen_end id Opened w) = false
   /\ pending (tryOpen_end id Opened w) = None
   /\ port (tryOpen_end id Opened w) = port w
   /\ objects (tryOpen_end id Opened w) !! id = Some (set_isOpen true p)
   /\ set_isOpen true p ∈ open_handles (tryOpen_end id Opened w)
   /\ (port w = Some id -> open_port (tryOpen_end id Opened w) = Some id)
   /\ (port w = None -> serialOpen (tryOpen_end id Opened w) = false))
  /\ (forall cause,
        opening (tryOpen_end id (OpenFailed cause) w) = false
        /\ pending (tryOpen_end id (OpenFailed cause) w) = None
        /\ port (tryOpen_end id (OpenFailed cause) w) = None
        /\ serialOpen (tryOpen_end id (OpenFailed cause) w) = false
        /\ objects (tryOpen_end id (OpenFailed cause) w) = objects w
        /\ errors (tryOpen_end id (OpenFailed cause) w)
           = errors w ++ [cause]).
Proof.
  intros Hl.
  assert (Hobj : objects (tryOpen_end id Opened w) !! id
                 = Some (set_isOpen true p)).
  { cbn [tryOpen_end objects]. rewrite list_lookup_alter_eq, Hl.
    reflexivity. }
  split.
  - split; [reflexivity|]. split; [reflexivity|]. split; [reflexivity|].
    split; [exact Hobj|]. split; [|split].
    + unfold open_handles. apply list_elem_of_filter.
      split; [reflexivity|]. apply list_elem_of_lookup. eauto.
    + intros Hp. apply open_port_Some. split; [exact Hp|]. eauto.
    + intros Hp. apply serialOpen_false. unfold open_port.
      cbn [tryOpen_end port]. rewrite Hp. reflexivity.
  - intros cause. repeat split.
Qed.

Lemma callback_clears_the_flag_witness :
  objects opening0 !! 0%nat
  = Some {| path := JStr (lit "/dev/ttyUSB0"); baudRate := 9600;
            isOpen := false |}
  /\ open_port (tryOpen_end 0 Opened opening0) = Some 0%nat
  /\ pending closed_while_opening = Some 1%nat
  /\ port closed_while_opening = None
  /\ serialOpen (tryOpen_end 1 Opened closed_while_opening) = false
  /\ {| path := JStr (lit "/dev/ttyS5"); baudRate := 9600; isOpen := true |}
     ∈ open_handles (tryOpen_end 1 Opened closed_while_opening).
Proof.
  split; [reflexivity|].
  destruct (callback_clears_the_flag opening0 0 _ eq_refl)
    as [(_ & _ & _ & _ & _ & H1 & _) _].
  destruct (callback_clears_the_flag closed_while_opening 1
              {| path := JStr (lit "/dev/ttyS5"); baudRate := 9600;
                 isOpen := false |} eq_refl)
    as [(_ & _ & _ & _ & H2 & _ & H3) _].
  split; [exact (H1 eq_refl)|]. split; [reflexivity|].
  split; [reflexivity|]. split; [exact (H3 eq_refl) | exact H2].
Defined.

(** ** write-base64 *)

(** X20: write-base64 answers that the payload is missing exactly when
    the request has no [b64] or an empty, null, zero or false one, and it
    does so before looking at the link; any other value goes on to the
    link and to [Buffer.from]. *)
Theorem write_base64_misses_only_empty_values
  (decode : Json -> option Buffer) (body : option Json) (io : WriteResult)
  (w : World) :
  snd (post_write_base64 decode body io w) = MissingPayload_b64
  <-> (prop body "b64" = None
       \/ exists v, prop body "b64" = Some v /\ truthy v = false).
Proof.
  unfold post_write_base64. split.
  - destruct (prop body "b64") as [v|]; [|auto].
    destruct (truthy v) eqn:Ht; [|eauto].
    destruct (open_port w); [|discriminate].
    destruct (decode v); [|discriminate].
    unfold write_and_drain. cbn [snd]. destruct io; discriminate.
  - intros [-> | (v & -> & ->)]; reflexivity.
Qed.

(** ** Sanity checks *)

Lemma guarded_without_secret cfg h handler w :
  BRIDGE_SECRET cfg = [] -> guarded cfg h handler w = handler w.
Proof. intros H. unfold guarded, authMiddleware. rewrite H. reflexivity. Qed.

Example guarded_wrong_secret :
  guarded {| SERIAL_PATH := lit "COM4"; BAUD := 9600;
             BRIDGE_SECRET := lit "mysecret"; AUTO_OPEN := true |}
    {| x_bridge_secret := Some (lit "guess"); authorization := None |}
    post_close opened0
  = (opened0, Unauthorized).
Proof. vm_compute. reflexivity. Qed.

Example health_after_close :
  get_health cfg0 (fst (post_close (fst (post_close opened0))))
  = Ok_health (lit "/dev/ttyUSB0") false.
Proof. vm_compute. reflexivity. Qed.

Example asciiToHex_Hi : asciiToHex (lit "Hi") = lit "4869".
Proof. vm_compute. reflexivity. Qed.

Example js_String_arr :
  js_String (JArr [JNum (lit "1"); JNull; JStr (lit "a")]) = Some (lit "1,,a").
Proof. vm_compute. reflexivity. Qed.

Example parseInt_ex : parseInt10 (lit " -96x") = Some (-96)%Z.
Proof. vm_compute. reflexivity. Qed.

Example Z_toString_ex : Z_toString 9600 = lit "9600".
Proof. vm_compute. reflexivity. Qed.
